(** * icon_mcp: the selection handoff subsystem

    A shallow embedding of the expiring key-value store
    ([utils/cache.py]), the session transport and the server's
    start-up ([utils/web_server.py]), the polling coordinator
    ([server.py], [_check_selection]), the cached search
    ([utils/search.py]), the icon saver ([utils/saver.py]) and the
    language selection ([lang/__init__.py]).

    Conventions.
    - Clock readings ([time.time()]) and durations are integers counting
      milliseconds; [expiry_seconds], the polling interval (0.1 s) and
      the grace period (2 s) are expressed in that unit.
    - Python dictionaries keyed by strings are [gmap string _].
    - The server runs on one asyncio event loop: the code between two
      [await]s runs without interleaving.  Every handler is therefore cut
      at its suspension points and each piece is one atomic transition of
      the [World]; all clock readings of one piece are the same.
    - [asyncio.sleep(d)] resumes no earlier than [d] after it was called,
      and possibly later.
    - The diagnostic lines printed to [sys.stderr] are left out: printing
      is taken to succeed and touches none of the state modelled. *)

From Stdlib Require Import ZArith List Ascii.
From stdpp Require Import base gmap strings list fin_maps pretty.

Open Scope Z_scope.

(** ** models.py *)

(** [CacheEntry(data, timestamp, key)]; the payload is the icon cache's
    or the search cache's. *)
Record CacheEntry (A : Type) := mkCacheEntry {
  data : A;
  timestamp : Z;
  key : string;
}.
Arguments mkCacheEntry {A} _ _ _.
Arguments data {A} _.
Arguments timestamp {A} _.
Arguments key {A} _.

Inductive SelectionStatus := WAITING | COMPLETED | FAILED | TIMEOUT.

#[global] Instance SelectionStatus_eq_dec : EqDecision SelectionStatus.
Proof. solve_decision. Defined.

(** ** lang/__init__.py *)

Module lang.

(** A value of a translation table: a string, a nested dictionary, or
    anything else. *)
#[local] Unset Elimination Schemes.
Inductive LangValue :=
| LStr (s : string)
| LDict (d : gmap string LangValue)
| LOther.
#[local] Set Elimination Schemes.

Definition AVAILABLE_LANGUAGES : list string := ["en"; "zh-CN"].
Definition DEFAULT_LANGUAGE : string := "en".

(** The two module globals. *)
Record LangState := mkLangState {
  _current_language : string;
  _language_data : option LangValue;
}.

Definition initial : LangState := mkLangState DEFAULT_LANGUAGE None.

(** [s.split(sep)] for a one-character separator; [cur] is the pending
    piece, reversed. *)
Fixpoint split_go (sep : ascii) (cur s : string) : list string :=
  match s with
  | EmptyString => [String.rev cur]
  | String ch s' =>
      if decide (ch = sep) then String.rev cur :: split_go sep EmptyString s'
      else split_go sep (String ch cur) s'
  end.

Definition split (sep : ascii) (s : string) : list string :=
  split_go sep EmptyString s.

Definition set_language (l : string) (st : LangState) : LangState :=
  if bool_decide (l ∈ AVAILABLE_LANGUAGES) then mkLangState l None else st.

Definition get_current_language (st : LangState) : string :=
  _current_language st.

Section tables.

(** [TRANSLATIONS] of [lang/en.py] and of [lang/zh_cn.py]; the two
    tables are not among the sources. *)
Context (en_table zh_cn_table : LangValue).

Definition _load_language_data (st : LangState) : LangValue * LangState :=
  match _language_data st with
  | Some d => (d, st)
  | None =>
      let d := if bool_decide (_current_language st = "zh-CN")
               then zh_cn_table else en_table in
      (d, mkLangState (_current_language st) (Some d))
  end.

(** The walk down the nested keys; [None] where the source returns the
    key itself. *)
Fixpoint navigate (value : LangValue) (parts : list string)
    : option LangValue :=
  match parts with
  | [] => Some value
  | part :: rest =>
      match value with
      | LDict d =>
          match d !! part with
          | Some v => navigate v rest
          | None => None
          end
      | _ => None
      end
  end.

(** [t(key)], called without [params] (or with an empty dictionary):
    no interpolation takes place. *)
Definition t (k : string) (st : LangState) : string * LangState :=
  let '(d, st') := _load_language_data st in
  match navigate d (split "." k) with
  | Some (LStr v) => (v, st')
  | _ => (k, st')
  end.

(** The calls that read or write the two globals, and a sequence of
    them. *)
Inductive Call :=
| CallSetLanguage (l : string)
| CallInitFromEnv (LANGUAGE LANG : option string)
| CallT (k : string).

End tables.

(** [a or b] on optional strings: the first that is neither absent nor
    empty. *)
Definition truthy (o : option string) : option string :=
  match o with
  | Some s => if bool_decide (s = "") then None else Some s
  | None => None
  end.

(** [init_from_env]; the arguments are [os.environ.get("LANGUAGE")] and
    [os.environ.get("LANG")]. *)
Definition init_from_env (LANGUAGE LANG : option string) (st : LangState)
    : LangState :=
  let l := default DEFAULT_LANGUAGE
             (match truthy LANGUAGE with
              | Some s => Some s
              | None => truthy LANG
              end) in
  let l := default EmptyString (head (split "." l)) in
  if bool_decide (l ∈ AVAILABLE_LANGUAGES) then set_language l st
  else if String.prefix "zh" l then set_language "zh-CN" st
  else set_language "en" st.

Definition call (en_table zh_cn_table : LangValue) (st : LangState)
    (c : Call) : LangState :=
  match c with
  | CallSetLanguage l => set_language l st
  | CallInitFromEnv a b => init_from_env a b st
  | CallT k => (t en_table zh_cn_table k st).2
  end.

(** The table of a language, as [_load_language_data] picks it. *)
Definition table_of (en_table zh_cn_table : LangValue) (l : string)
    : LangValue :=
  if bool_decide (l = "zh-CN") then zh_cn_table else en_table.

(** The cached table, if any, is the table of the current language,
    and the current language is an available one. *)
Definition coherent (en_table zh_cn_table : LangValue) (st : LangState)
    : Prop :=
  _current_language st ∈ AVAILABLE_LANGUAGES
  ∧ ∀ d, _language_data st = Some d →
         d = table_of en_table zh_cn_table (_current_language st).

(** The locale [init_from_env] decides on: [LANGUAGE], else [LANG],
    else the default, cut at the first dot. *)
Definition locale_of (LANGUAGE LANG : option string) : string :=
  default EmptyString
    (head (split "."
             (default DEFAULT_LANGUAGE
                (match truthy LANGUAGE with
                 | Some s => Some s
                 | None => truthy LANG
                 end)))).

End lang.

(** ** utils/saver.py *)

(** An icon dictionary as [save_icons] reads it: the three keys it
    looks up, each absent or a string. *)
Record IconDict := mkIconDict {
  icon_name : option string;
  icon_svg : option string;
  icon_show_svg : option string;
}.

(** [os.path.join(a, b)] on POSIX paths. *)
Definition ends_with_slash (a : string) : bool :=
  String.prefix "/" (String.rev a).

Definition os_path_join (a b : string) : string :=
  if String.prefix "/" b then b
  else if bool_decide (a = "") || ends_with_slash a then a +:+ b
  else a +:+ "/" +:+ b.

(** The files written so far, and the two result lists. *)
Record SaveState := mkSaveState {
  files : gmap string string;
  saved : list string;
  failed : list string;
}.

(** What the file system does with one pass through the [try] block:
    [open(path, "w")] raises; or the file is opened, which creates or
    empties it, and the write or the close that ends the [with] block
    raises, [written] being what has reached the file by then; or the
    text is written and the file closed. *)
Inductive IoOutcome :=
| OpenFails
| WriteFails (written : string)
| WriteOk.

Definition is_ok (o : IoOutcome) : bool :=
  match o with WriteOk => true | _ => false end.


(** One turn of the loop of [save_icons]; [o] is what the file system
    does if the turn reaches the [try] block. *)
Definition save_one (full_path : string) (o : IoOutcome)
    (st : SaveState) (icon : IconDict) : SaveState :=
  let name := default "unknown" (icon_name icon) in
  let svg_content :=
    match icon_svg icon with
    | Some v => v
    | None => default "" (icon_show_svg icon)
    end in
  if bool_decide (svg_content = "") then
    mkSaveState (files st) (saved st) (failed st ++ [name])
  else
    let file_name := name +:+ ".svg" in
    let file_path := os_path_join full_path file_name in
    match o with
    | WriteOk =>
        mkSaveState (<[file_path := svg_content]> (files st))
          (saved st ++ [file_name]) (failed st)
    | WriteFails written =>
        mkSaveState (<[file_path := written]> (files st))
          (saved st) (failed st ++ [name])
    | OpenFails =>
        mkSaveState (files st) (saved st) (failed st ++ [name])
    end.

(** The loop [for icon in icons]; [io i] is the file system's answer in
    turn [i], counted from [i] for the first icon of the list. *)
Fixpoint save_loop (io : nat → IoOutcome) (full_path : string) (i : nat)
    (st : SaveState) (icons : list IconDict) : SaveState :=
  match icons with
  | [] => st
  | icon :: rest =>
      save_loop io full_path (S i) (save_one full_path (io i) st icon) rest
  end.

(** The text [save_icons] writes for an icon, its file name and the
    path it writes to. *)
Definition svg_of (icon : IconDict) : string :=
  match icon_svg icon with
  | Some v => v
  | None => default "" (icon_show_svg icon)
  end.

Definition name_of (icon : IconDict) : string :=
  default "unknown" (icon_name icon).


(** The icons of a list with the number of their turn. *)
Definition turns (icons : list IconDict) : list (nat * IconDict) :=
  zip (seq 0 (length icons)) icons.

(** The turns that save their icon: it has some text, and the file is
    opened, written and closed. *)
Definition savable (io : nat → IoOutcome) (turn : nat * IconDict) : bool :=
  negb (bool_decide (svg_of turn.2 = "")) && is_ok (io turn.1).


Inductive SaveOutcome :=
| SaveNoIcons                          (* ValueError("No icons to save") *)
| SaveMakedirsError                    (* [os.makedirs] raised *)
| SaveDone (saved failed : list string) (save_path : string).

(** [save_icons]; [full_path] is [os.path.abspath(save_path)] and
    [makedirs_ok] tells whether the directory could be made. *)
Definition save_icons (io : nat → IoOutcome) (makedirs_ok : bool)
    (icons : list IconDict) (full_path : string) (fs : gmap string string)
    : SaveOutcome * gmap string string :=
  match icons with
  | [] => (SaveNoIcons, fs)
  | _ =>
      if negb makedirs_ok then (SaveMakedirsError, fs)
      else
        let st := save_loop io full_path 0 (mkSaveState fs [] []) icons in
        (SaveDone (saved st) (failed st) full_path, files st)
  end.

(** ** utils/web_server.py: the server's start-up *)

(** The fields of [WebServer] that [start] touches; [_site] holds
    whether the attribute is set. *)
Record WebServer := mkWebServer {
  port : Z;
  auto_open : bool;
  _site : bool;
}.

Definition is_running (srv : WebServer) : bool := _site srv.

Definition get_url (srv : WebServer) : string :=
  "http://localhost:" +:+ pretty (port srv).

Definition get_ws_url (srv : WebServer) : string :=
  "ws://localhost:" +:+ pretty (port srv) +:+ "/ws".

(** The loop of [_find_available_port] with [n] ports left to try;
    [free p] tells whether the trial bind of [p] succeeds. *)
Fixpoint probe (free : Z → bool) (n : nat) (p : Z) : option Z :=
  match n with
  | O => None
  | S n' => if free p then Some p else probe free n' (p + 1)
  end.

(** [_find_available_port]: [max_port = start_port + 100], and [rnd] is
    the draw of [random.randint(20000, 30000)]. *)
Definition _find_available_port (free : Z → bool) (rnd : Z) (start_port : Z)
    : Z :=
  match probe free 100 start_port with
  | Some p => p
  | None => rnd
  end.

Inductive StartResult :=
| AlreadyRunning (p : Z) (url : string)
| Started (p : Z) (url : string) (browser_opened : bool)
| StartRaised.                           (* [self._site.start()] raised *)

(** [start]; [bind_ok] tells whether the final bind succeeds. *)
Definition start (free : Z → bool) (rnd : Z) (bind_ok : bool)
    (port_arg : option Z) (auto_open_arg : option bool) (srv : WebServer)
    : StartResult * WebServer :=
  if is_running srv then (AlreadyRunning (port srv) (get_url srv), srv)
  else
    let p0 := default (port srv) port_arg in
    let ao := default (auto_open srv) auto_open_arg in
    let p := _find_available_port free rnd p0 in
    let srv' := mkWebServer p ao true in
    if bind_ok then (Started p (get_url srv') ao, srv')
    else (StartRaised, srv').

Section IconMcp.

(** An item descriptor as delivered by the upstream API (a JSON object);
    the subsystem never looks inside. *)
Context {Icon : Type}.

(** [SelectionData].  Where the source omits [selected_icons] the
    pydantic default, the empty list, is written out. *)
Record SelectionData := mkSelectionData {
  status : SelectionStatus;
  sel_search_id : string;
  sel_timestamp : Z;
  connected : bool;
  selected_icons : list Icon;
}.

(** The address of a dictionary object in the object store. *)
Definition ref := nat.

(** The dictionary [search_icons] builds.  The icon cache and the caller
    share this one object: it lives in the object store under a [ref]
    and the icon cache holds that [ref].  [web_url] and
    [waiting_message] are the two keys the tool dispatcher adds to the
    object afterwards. *)
Record SearchResult := mkSearchResult {
  search_id : string;
  query : string;
  count : Z;
  total_count : Z;
  page : Z;
  page_size : Z;
  icons : list Icon;
  instructions : list string;
  web_url : option string;
  waiting_message : option string;
}.

(** The dictionary [search_icons] stores in the search cache. *)
Record SearchRecord := mkSearchRecord {
  sr_query : string;
  sr_page : Z;
  sr_page_size : Z;
  sr_icons : list Icon;
  sr_total_count : Z;
  sr_timestamp : Z;
}.

(** ** utils/cache.py *)

Record CacheManager := mkCacheManager {
  expiry_seconds : Z;
  _icon_cache : gmap string (CacheEntry ref);
  _search_cache : gmap string (CacheEntry SearchRecord);
  _selection_cache : gmap string SelectionData;
}.

(** [CacheManager.__init__] *)
Definition new_cache (expiry : Z) : CacheManager :=
  mkCacheManager expiry ∅ ∅ ∅.

Definition with_icon_cache (m : gmap string (CacheEntry ref))
    (c : CacheManager) : CacheManager :=
  mkCacheManager (expiry_seconds c) m (_search_cache c) (_selection_cache c).

Definition with_search_cache (m : gmap string (CacheEntry SearchRecord))
    (c : CacheManager) : CacheManager :=
  mkCacheManager (expiry_seconds c) (_icon_cache c) m (_selection_cache c).

Definition with_selection_cache (m : gmap string SelectionData)
    (c : CacheManager) : CacheManager :=
  mkCacheManager (expiry_seconds c) (_icon_cache c) (_search_cache c) m.

(** [now - entry.timestamp > self.expiry_seconds] *)
Definition expired {A} (expiry now : Z) (e : CacheEntry A) : bool :=
  bool_decide (now - timestamp e > expiry).

(** The body shared by [get_icon] and [get_search]: the looked-up value
    and the dictionary after the call. *)
Definition get_entry {A} (expiry now : Z) (k : string)
    (m : gmap string (CacheEntry A)) : option A * gmap string (CacheEntry A) :=
  match m !! k with
  | None => (None, m)
  | Some entry =>
      if expired expiry now entry then (None, delete k m)
      else (Some (data entry), m)
  end.

Definition get_icon (now : Z) (k : string) (c : CacheManager)
    : option ref * CacheManager :=
  let '(r, m) := get_entry (expiry_seconds c) now k (_icon_cache c) in
  (r, with_icon_cache m c).

Definition set_icon (now : Z) (k : string) (d : ref)
    (c : CacheManager) : CacheManager :=
  with_icon_cache (<[k := mkCacheEntry d now k]> (_icon_cache c)) c.

Definition get_search (now : Z) (k : string) (c : CacheManager)
    : option SearchRecord * CacheManager :=
  let '(r, m) := get_entry (expiry_seconds c) now k (_search_cache c) in
  (r, with_search_cache m c).

Definition set_search (now : Z) (k : string) (d : SearchRecord)
    (c : CacheManager) : CacheManager :=
  with_search_cache (<[k := mkCacheEntry d now k]> (_search_cache c)) c.

Definition get_selection (sid : string) (c : CacheManager)
    : option SelectionData :=
  _selection_cache c !! sid.

Definition set_selection (sid : string) (d : SelectionData)
    (c : CacheManager) : CacheManager :=
  with_selection_cache (<[sid := d]> (_selection_cache c)) c.

Definition delete_selection (sid : string) (c : CacheManager)
    : CacheManager :=
  with_selection_cache (delete sid (_selection_cache c)) c.

(** [get_stats] *)
Record NamespaceStats := mkNamespaceStats {
  valid : Z;
  expired_count : Z;
  total : Z;
}.

Record CacheStats := mkCacheStats {
  icon_cache_stats : NamespaceStats;
  search_cache_stats : NamespaceStats;
  selection_cache_total : Z;
  cache_expiry_minutes : Z;
}.

(** [sum(1 for e in cache.values() if now - e.timestamp <= expiry)] *)
Definition count_valid {A} (expiry now : Z)
    (m : gmap string (CacheEntry A)) : Z :=
  Z.of_nat (length (List.filter
    (λ e, bool_decide (now - timestamp e <= expiry))
    (map snd (map_to_list m)))).

Definition namespace_stats {A} (expiry now : Z)
    (m : gmap string (CacheEntry A)) : NamespaceStats :=
  let v := count_valid expiry now m in
  let len := Z.of_nat (size m) in
  mkNamespaceStats v (len - v) len.

(** [int(self.expiry_seconds / 60)], with the expiry held in
    milliseconds; [int] truncates towards zero. *)
Definition get_stats (now : Z) (c : CacheManager) : CacheStats :=
  mkCacheStats
    (namespace_stats (expiry_seconds c) now (_icon_cache c))
    (namespace_stats (expiry_seconds c) now (_search_cache c))
    (Z.of_nat (size (_selection_cache c)))
    (Z.quot (expiry_seconds c) 60000).

(** One turn of the loop of [clear(expired_only=True)]:
    [if now - cache[key].timestamp > expiry: del cache[key]; cleared += 1].
    The keys come from a snapshot of the dictionary, so [cache[key]] is
    always present; the absent case stands for the [KeyError]. *)
Definition clear_step {A} (expiry now : Z)
    (acc : gmap string (CacheEntry A) * Z) (k : string)
    : gmap string (CacheEntry A) * Z :=
  match acc.1 !! k with
  | Some e => if expired expiry now e then (delete k acc.1, acc.2 + 1) else acc
  | None => acc
  end.

Definition clear_expired {A} (expiry now : Z)
    (m : gmap string (CacheEntry A)) : gmap string (CacheEntry A) * Z :=
  foldl (clear_step expiry now) (m, 0) (map fst (map_to_list m)).

Record ClearResult := mkClearResult {
  icon_cleared : Z;
  search_cleared : Z;
}.

Definition clear (now : Z) (expired_only : bool) (c : CacheManager)
    : ClearResult * CacheManager :=
  if expired_only then
    let '(mi, icon_n) := clear_expired (expiry_seconds c) now (_icon_cache c) in
    let '(ms, search_n) :=
      clear_expired (expiry_seconds c) now (_search_cache c) in
    (mkClearResult icon_n search_n,
     mkCacheManager (expiry_seconds c) mi ms (_selection_cache c))
  else
    (mkClearResult (Z.of_nat (size (_icon_cache c)))
                   (Z.of_nat (size (_search_cache c))),
     mkCacheManager (expiry_seconds c) ∅ ∅ (_selection_cache c)).

(** ** Python list slicing and integer division *)

(** How [l[start:stop]] places one bound on a list of length [len]. *)
Definition slice_bound (len i : Z) : Z :=
  if bool_decide (i < 0) then Z.max 0 (i + len) else Z.min i len.

(** [l[start:stop]] *)
Definition py_slice {A} (l : list A) (start stop : Z) : list A :=
  let len := Z.of_nat (length l) in
  let s := slice_bound len start in
  let e := slice_bound len stop in
  take (Z.to_nat (e - s)) (drop (Z.to_nat s) l).

(** [a // b]: floor division, [ZeroDivisionError] on [b = 0]. *)
Definition floordiv (a b : Z) : option Z :=
  if bool_decide (b = 0) then None else Some (a / b).

(** ** utils/web_server.py *)

(** The JSON body of the 200 answer of [/api/cache]. *)
Record CachePage := mkCachePage {
  cp_icons : list Icon;
  cp_count : Z;
  cp_totalCount : Z;
  cp_page : Z;
  cp_pageSize : Z;
  cp_totalPages : Z;
}.

Inductive CacheApiResponse :=
| CacheApiNotFound                    (* 404, "Search not found" *)
| CacheApiOk (body : CachePage)       (* 200 *)
| CacheApiZeroDivision.               (* the handler raises, aiohttp answers 500 *)

(** [_handle_cache_api].  [page] and [page_size] are the query
    parameters after [int(...)]. *)
Definition _handle_cache_api (now : Z) (sid : string) (page page_size : Z)
    (c : CacheManager) : CacheApiResponse * CacheManager :=
  let '(cached, c') := get_search now sid c in
  match cached with
  | None => (CacheApiNotFound, c')
  | Some rec =>
      let icons := sr_icons rec in
      let total_count := sr_total_count rec in
      let start := (page - 1) * page_size in
      let end_ := start + page_size in
      let page_icons := py_slice icons start end_ in
      match floordiv (Z.of_nat (length icons) + page_size - 1) page_size with
      | None => (CacheApiZeroDivision, c')
      | Some q =>
          (CacheApiOk (mkCachePage page_icons (Z.of_nat (length page_icons))
                         total_count page page_size (Z.max 1 q)), c')
      end
  end.

Inductive SaveRequest :=
| SaveInvalidJson
| SaveBody (icons : list Icon) (searchId : string).

Inductive SaveResponse :=
| SaveBadJson                         (* 400, "Invalid JSON" *)
| SaveMissing                         (* 400, "Missing icons or searchId" *)
| SaveSuccess (count : Z).            (* 200 *)

Definition is_empty_list {A} (l : list A) : bool :=
  match l with [] => true | _ => false end.

(** [_handle_save_api]: the submission route. *)
Definition _handle_save_api (now : Z) (req : SaveRequest) (c : CacheManager)
    : SaveResponse * CacheManager :=
  match req with
  | SaveInvalidJson => (SaveBadJson, c)
  | SaveBody icons sid =>
      if is_empty_list icons || bool_decide (sid = "") then (SaveMissing, c)
      else
        (SaveSuccess (Z.of_nat (length icons)),
         set_selection sid (mkSelectionData COMPLETED sid now true icons) c)
  end.

(** [_handle_websocket] is cut at its suspension points.  First piece,
    from [ws.prepare] to the sending of the welcome message:
    "Initialize selection tracking". *)
Definition ws_connect (now : Z) (sid : string) (c : CacheManager)
    : CacheManager :=
  if bool_decide (sid = "") then c
  else set_selection sid (mkSelectionData WAITING sid now true []) c.

(** [selection and selection.status == SelectionStatus.WAITING] *)
Definition is_waiting (sel : option SelectionData) : bool :=
  match sel with
  | Some s => bool_decide (status s = WAITING)
  | None => false
  end.

(** The [finally] block up to [asyncio.sleep(2)], entered however the
    message loop ends: does the handler enter the grace period? *)
Definition ws_disconnect (sid : string) (c : CacheManager) : bool :=
  if bool_decide (sid = "") then false
  else is_waiting (get_selection sid c).

Definition grace_period : Z := 2000.

(** The [finally] block after the sleep: the re-check and the FAILED
    write. *)
Definition ws_after_grace (now : Z) (sid : string) (c : CacheManager)
    : CacheManager :=
  if is_waiting (get_selection sid c)
  then set_selection sid (mkSelectionData FAILED sid now false []) c
  else c.

(** ** server.py: [_check_selection] *)

(** The human-readable texts produced through [t(...)]. *)
Inductive Message :=
| MsgNoSearchFound (searchId : string)      (* selection.noSearchFound *)
| MsgSelectionFailed                        (* selection.selectionFailed *)
| MsgSelectionTimeout (seconds : Z).        (* selection.selectionTimeout *)

(** The dictionary [_check_selection] returns. *)
Record PollResult := mkPollResult {
  success : bool;
  poll_status : string;
  poll_selected_icons : option (list Icon);
  poll_count : option Z;
  poll_message : option Message;
}.

(** Where the coroutine of [_check_selection] stands after an atomic
    piece: suspended in [asyncio.sleep(check_interval)] with its local
    variables, returned, or left by [raise ValueError]. *)
Inductive PollPc :=
| PollSleeping (sid : string) (max_wait_ms start last_log wake : Z)
| PollReturned (r : PollResult)
| PollRaised (e : Message).

Definition check_interval : Z := 100.
Definition log_interval : Z := 10000.

(** From the loop test [while time.time() - start < max_wait_s] to the
    next suspension or exit.  [int(now - start)] counts whole seconds. *)
Definition poll_loop (now : Z) (sid : string) (max_wait_ms start last_log : Z)
    (c : CacheManager) : PollPc * CacheManager :=
  if bool_decide (now - start < max_wait_ms) then
    let sleep :=
      let last_log' :=
        if bool_decide (now - last_log >= log_interval) then now
        else last_log in
      PollSleeping sid max_wait_ms start last_log' (now + check_interval) in
    match get_selection sid c with
    | Some selection =>
        if bool_decide (status selection = COMPLETED) then
          let icons := selected_icons selection in
          (PollReturned (mkPollResult true "completed" (Some icons)
                           (Some (Z.of_nat (length icons))) None),
           delete_selection sid c)
        else if bool_decide (status selection = FAILED) then
          (PollReturned (mkPollResult false "failed" None None
                           (Some MsgSelectionFailed)),
           delete_selection sid c)
        else (sleep, c)
    | None => (sleep, c)
    end
  else
    (PollReturned (mkPollResult false "timeout" None None
                     (Some (MsgSelectionTimeout (Z.quot (now - start) 1000)))),
     c).

(** The call itself: "Validate search_id exists", then the first turn
    of the loop. *)
Definition _check_selection (now : Z) (sid : string) (max_wait_ms : Z)
    (c : CacheManager) : PollPc * CacheManager :=
  let '(cached, c') := get_search now sid c in
  match cached with
  | None => (PollRaised (MsgNoSearchFound sid), c')
  | Some _ => poll_loop now sid max_wait_ms now now c'
  end.

(** ** utils/search.py *)

(** Localized string lookup [t(key)]. *)
Context (t : string → string).

Record SearchArgs := mkSearchArgs {
  q : string;
  sort_type : string;
  arg_page : Z;
  arg_page_size : Z;
  s_type : string;
  from_collection : Z;
  fills : string;
}.

Inductive SearchError :=
| InvalidPage                      (* ValueError, search.invalidPage *)
| InvalidPageSize                  (* ValueError, search.invalidPageSize *)
| UpstreamTimeout                  (* TimeoutError *)
| SearchFailed.                    (* RuntimeError *)

(** What [client.post] and [response.json()] deliver. *)
Inductive Upstream :=
| UpTimeout
| UpException
| UpJson (code : Z) (icons : list Icon) (count : Z).

(** [f"search_{q}_{sort_type}_{page}_{page_size}_{s_type}_{from_collection}_{fills}"] *)
Definition cache_key (a : SearchArgs) : string :=
  "search_" +:+ q a +:+ "_" +:+ sort_type a +:+ "_" +:+ pretty (arg_page a)
    +:+ "_" +:+ pretty (arg_page_size a) +:+ "_" +:+ s_type a +:+ "_"
    +:+ pretty (from_collection a) +:+ "_" +:+ fills a.

(** [_generate_search_id]; [rand_str] is the draw of [random.choices]. *)
Definition _generate_search_id (now : Z) (rand_str : string) : string :=
  "search_" +:+ pretty now +:+ "_" +:+ rand_str.

(** Where the coroutine of [search_icons] stands. *)
Inductive SearchPc :=
| SearchAwaitPost (a : SearchArgs)   (* suspended in [client.post] *)
| SearchReturned (r : ref)
| SearchRaised (e : SearchError).

(** [search_icons] up to the upstream request: validation and the cache
    check. *)
Definition search_icons (now : Z) (a : SearchArgs) (c : CacheManager)
    : SearchPc * CacheManager :=
  if bool_decide (arg_page a < 1) then (SearchRaised InvalidPage, c)
  else if bool_decide (arg_page_size a < 1) || bool_decide (arg_page_size a > 100)
  then (SearchRaised InvalidPageSize, c)
  else
    let '(cached, c') := get_icon now (cache_key a) c in
    match cached with
    | Some r => (SearchReturned r, c')
    | None => (SearchAwaitPost a, c')
    end.

(** [search_icons] from the upstream answer on: mint the identifier,
    build the result object at a fresh address and cache it. *)
Definition search_icons_resume (now : Z) (a : SearchArgs) (resp : Upstream)
    (rand_str : string) (heap : gmap ref SearchResult) (c : CacheManager)
    : SearchPc * gmap ref SearchResult * CacheManager :=
  match resp with
  | UpTimeout => (SearchRaised UpstreamTimeout, heap, c)
  | UpException => (SearchRaised SearchFailed, heap, c)
  | UpJson code icons_data total =>
      if bool_decide (code ≠ 200) then (SearchRaised SearchFailed, heap, c)
      else
        let sid := _generate_search_id now rand_str in
        let result :=
          mkSearchResult sid (q a) (Z.of_nat (length icons_data)) total
            (arg_page a) (arg_page_size a) icons_data
            [ "1. " +:+ t "search.browseAndSelect";
              "2. " +:+ t "search.clickSelect";
              "3. " +:+ t "search.sendToClient";
              "4. " +:+ t "search.autoReturn" ] None None in
        let r : ref := fresh (dom heap) in
        let c1 := set_icon now (cache_key a) r c in
        let c2 := set_search now sid
                    (mkSearchRecord (q a) (arg_page a) (arg_page_size a)
                       icons_data total now) c1 in
        (SearchReturned r, <[r := result]> heap, c2)
  end.

(** The part of the [search_icons] branch of [_dispatch_tool] that
    follows the call: two keys are written into the returned object,
    which is the object the icon cache holds. *)
Definition decorate (port : Z) (res : SearchResult) : SearchResult :=
  mkSearchResult (search_id res) (query res) (count res) (total_count res)
    (page res) (page_size res) (icons res) (instructions res)
    (Some ("http://localhost:" +:+ pretty port +:+ "?searchId="
             +:+ search_id res))
    (Some (t "search.pleaseWaitForSelection")).

(** ** The event loop *)

(** Where a [_handle_websocket] coroutine stands: sending the welcome
    message (outside the [try]), in the message loop, in the
    grace-period sleep (to be woken at [wake] at the earliest), finished,
    or left by an exception of the welcome [send_json], which skips the
    [finally] block. *)
Inductive WsPc :=
| WsWelcome
| WsListening
| WsGrace (wake : Z)
| WsClosed
| WsCrashed.

Record WsHandler := mkWsHandler {
  ws_search_id : string;
  ws_pc : WsPc;
}.

(** A [search_icons] tool call: inside [search_icons], or answered (the
    dispatcher has written its two keys and returned the object). *)
Inductive SearchTask :=
| SearchRunning (pc : SearchPc)
| SearchDelivered (r : ref).

Record World := mkWorld {
  cache : CacheManager;
  heap : gmap ref SearchResult;
  clock : Z;
  _ws_clients : gset nat;
  ws_handlers : gmap nat WsHandler;
  polls : gmap nat PollPc;
  searches : gmap nat SearchTask;
}.

(** What the loop can run next: the passing of time, or one atomic
    piece of one handler. *)
Inductive Event :=
| Tick (d : Z)                           (* [d] ms pass *)
| WsOpen (conn : nat) (sid : string)     (* GET /ws?searchId=sid *)
| WsWelcomed (conn : nat)                (* welcome sent, loop entered *)
| WsWelcomeError (conn : nat)            (* welcome [send_json] raised *)
| WsText (conn : nat) (is_ping : bool)   (* a text frame; ping gets pong *)
| WsClose (conn : nat)                   (* the message loop ends *)
| WsGraceOver (conn : nat)               (* [asyncio.sleep(2)] returns *)
| HttpSave (req : SaveRequest)           (* POST /api/save *)
| HttpCache (sid : string) (page page_size : Z)    (* GET /api/cache *)
| PollCall (p : nat) (sid : string) (max_wait_ms : Z)
                                         (* tool check_selection_status *)
| PollWake (p : nat)                     (* [asyncio.sleep(0.1)] returns *)
| SearchCall (s : nat) (a : SearchArgs)  (* tool search_icons *)
| SearchAnswer (s : nat) (resp : Upstream) (rand_str : string)
                                         (* [client.post] returns *)
| SearchDeliver (s : nat) (port : Z)     (* the dispatcher adds web_url *)
| ToolClear (expired_only : bool).       (* tool clear_cache *)

Definition with_cache (c : CacheManager) (w : World) : World :=
  mkWorld c (heap w) (clock w) (_ws_clients w) (ws_handlers w) (polls w)
    (searches w).

Definition with_ws (cl : gset nat) (h : gmap nat WsHandler) (c : CacheManager)
    (w : World) : World :=
  mkWorld c (heap w) (clock w) cl h (polls w) (searches w).

Definition with_poll (p : nat) (r : PollPc * CacheManager) (w : World)
    : World :=
  mkWorld r.2 (heap w) (clock w) (_ws_clients w) (ws_handlers w)
    (<[p := r.1]> (polls w)) (searches w).

(** [step w ev] is [None] when [ev] cannot happen in [w]: a sleep that
    has not lasted long enough, a handler that is not at that point, an
    identifier already in use, time running backwards. *)
Definition step (w : World) (ev : Event) : option World :=
  let now := clock w in
  match ev with
  | Tick d =>
      if bool_decide (0 <= d) then
        Some (mkWorld (cache w) (heap w) (now + d) (_ws_clients w)
                (ws_handlers w) (polls w) (searches w))
      else None
  | WsOpen conn sid =>
      match ws_handlers w !! conn with
      | None =>
          Some (with_ws ({[conn]} ∪ _ws_clients w)
                  (<[conn := mkWsHandler sid WsWelcome]> (ws_handlers w))
                  (ws_connect now sid (cache w)) w)
      | Some _ => None
      end
  | WsWelcomed conn =>
      match ws_handlers w !! conn with
      | Some (mkWsHandler sid WsWelcome) =>
          Some (with_ws (_ws_clients w)
                  (<[conn := mkWsHandler sid WsListening]> (ws_handlers w))
                  (cache w) w)
      | _ => None
      end
  | WsWelcomeError conn =>
      match ws_handlers w !! conn with
      | Some (mkWsHandler sid WsWelcome) =>
          Some (with_ws (_ws_clients w)
                  (<[conn := mkWsHandler sid WsCrashed]> (ws_handlers w))
                  (cache w) w)
      | _ => None
      end
  | WsText conn _ =>
      match ws_handlers w !! conn with
      | Some (mkWsHandler _ WsListening) => Some w
      | _ => None
      end
  | WsClose conn =>
      match ws_handlers w !! conn with
      | Some (mkWsHandler sid WsListening) =>
          let pc := if ws_disconnect sid (cache w)
                    then WsGrace (now + grace_period) else WsClosed in
          Some (with_ws (_ws_clients w ∖ {[conn]})
                  (<[conn := mkWsHandler sid pc]> (ws_handlers w))
                  (cache w) w)
      | _ => None
      end
  | WsGraceOver conn =>
      match ws_handlers w !! conn with
      | Some (mkWsHandler sid (WsGrace wake)) =>
          if bool_decide (wake <= now) then
            Some (with_ws (_ws_clients w)
                    (<[conn := mkWsHandler sid WsClosed]> (ws_handlers w))
                    (ws_after_grace now sid (cache w)) w)
          else None
      | _ => None
      end
  | HttpSave req => Some (with_cache (_handle_save_api now req (cache w)).2 w)
  | HttpCache sid page page_size =>
      Some (with_cache (_handle_cache_api now sid page page_size (cache w)).2 w)
  | PollCall p sid max_wait_ms =>
      match polls w !! p with
      | None => Some (with_poll p (_check_selection now sid max_wait_ms (cache w)) w)
      | Some _ => None
      end
  | PollWake p =>
      match polls w !! p with
      | Some (PollSleeping sid max_wait_ms start last_log wake) =>
          if bool_decide (wake <= now) then
            Some (with_poll p
                    (poll_loop now sid max_wait_ms start last_log (cache w)) w)
          else None
      | _ => None
      end
  | SearchCall s a =>
      match searches w !! s with
      | None =>
          let '(pc, c) := search_icons now a (cache w) in
          Some (mkWorld c (heap w) now (_ws_clients w) (ws_handlers w)
                  (polls w) (<[s := SearchRunning pc]> (searches w)))
      | Some _ => None
      end
  | SearchAnswer s resp rand_str =>
      match searches w !! s with
      | Some (SearchRunning (SearchAwaitPost a)) =>
          let '(pc, h, c) :=
            search_icons_resume now a resp rand_str (heap w) (cache w) in
          Some (mkWorld c h now (_ws_clients w) (ws_handlers w) (polls w)
                  (<[s := SearchRunning pc]> (searches w)))
      | _ => None
      end
  | SearchDeliver s port =>
      match searches w !! s with
      | Some (SearchRunning (SearchReturned r)) =>
          Some (mkWorld (cache w) (alter (decorate port) r (heap w)) now
                  (_ws_clients w) (ws_handlers w) (polls w)
                  (<[s := SearchDelivered r]> (searches w)))
      | _ => None
      end
  | ToolClear expired_only =>
      Some (with_cache (clear now expired_only (cache w)).2 w)
  end.

(** A schedule is run event by event. *)
Fixpoint run (w : World) (evs : list Event) : option World :=
  match evs with
  | [] => Some w
  | ev :: evs' =>
      match step w ev with
      | Some w' => run w' evs'
      | None => None
      end
  end.

Definition init_world (expiry : Z) : World :=
  mkWorld (new_cache expiry) ∅ 0 ∅ ∅ ∅ ∅.

(** ** Vocabulary of the statements *)

(** An entry whose age exceeds the TTL. *)
Definition older_than {A} (expiry now : Z) (kv : string * CacheEntry A)
    : Prop :=
  now - timestamp kv.2 > expiry.

#[global] Instance older_than_dec {A} expiry now (kv : string * CacheEntry A) :
  Decision (older_than expiry now kv).
Proof. unfold older_than. apply _. Defined.

(** A result of the shape [{success: false, status: timeout}]. *)
Definition is_timeout (r : PollResult) : Prop :=
  success r = false ∧ poll_status r = "timeout"
  ∧ poll_selected_icons r = None.

(** From [w] on a submission for [sid] can still be observed by a fresh
    poll: whenever the page submits a non-empty list [items] for [sid]
    some time after [w], a call of the tool made after that in a free
    slot, with a positive budget and the search record still cached
    within its TTL, returns those items and consumes the record. *)
Definition later_submission_observed (w : World) (sid : string) : Prop :=
  ∀ (p' : nat) (max_wait_ms' d d' : Z) (items : list Icon)
    (e' : CacheEntry SearchRecord),
    polls w !! p' = None →
    _search_cache (cache w) !! sid = Some e' →
    0 <= d → 0 <= d' →
    clock w + d + d' - timestamp e' <= expiry_seconds (cache w) →
    0 < max_wait_ms' → items ≠ [] → sid ≠ "" →
    ∃ w',
      run w [Tick d; HttpSave (SaveBody items sid); Tick d';
             PollCall p' sid max_wait_ms']
      = Some w'
      ∧ polls w' !! p'
        = Some (PollReturned
                  (mkPollResult true "completed" (Some items)
                     (Some (Z.of_nat (length items))) None))
      ∧ get_selection sid (cache w') = None.

(** The handler of connection [conn] has detected the closure for
    [sid]: it sleeps until [wake] or has finished. *)
Definition closing (w : World) (conn : nat) (sid : string) (wake : Z) : Prop :=
  ws_handlers w !! conn = Some (mkWsHandler sid (WsGrace wake))
  ∨ ws_handlers w !! conn = Some (mkWsHandler sid WsClosed).

(** The items of the answer of [/api/cache] for page [p], none when the
    answer is not a 200. *)
Definition page_items (now : Z) (sid : string) (page_size : Z)
    (c : CacheManager) (p : Z) : list Icon :=
  match (_handle_cache_api now sid p page_size c).1 with
  | CacheApiOk body => cp_icons body
  | _ => []
  end.

(** The shape of a stored selection record: filed under its own,
    non-empty identifier, stamped no later than [now], and with the
    [connected] flag and the item list that go with its status. *)
Definition record_wf (now : Z) (sid : string) (rec : SelectionData) : Prop :=
  sel_search_id rec = sid ∧ sid ≠ "" ∧ sel_timestamp rec <= now
  ∧ match status rec with
    | WAITING => connected rec = true ∧ selected_icons rec = []
    | COMPLETED => connected rec = true ∧ selected_icons rec ≠ []
    | FAILED => connected rec = false ∧ selected_icons rec = []
    | TIMEOUT => False
    end.

Definition selections_wf (w : World) : Prop :=
  ∀ sid rec, get_selection sid (cache w) = Some rec →
             record_wf (clock w) sid rec.

(** COMPLETED or FAILED. *)
Definition terminal (rec : SelectionData) : Prop :=
  status rec = COMPLETED ∨ status rec = FAILED.

(** Every cached search result is an object of the store, stamped no
    later than the clock, and as long as the entry can be served (its
    age is within the TTL) the identifier in that object has a search
    record that is at least as young. *)
Definition hit_is_known (w : World) : Prop :=
  ∀ k e, _icon_cache (cache w) !! k = Some e →
    timestamp e <= clock w
    ∧ ∃ obj, heap w !! data e = Some obj
        ∧ (clock w - timestamp e <= expiry_seconds (cache w) →
           ∃ rec, _search_cache (cache w) !! search_id obj = Some rec
                  ∧ timestamp e <= timestamp rec).

End IconMcp.

(** ** Sample data *)

(** Item descriptors reduced to their numeric id. *)
Definition demo_icons : list nat := seq 1 23.

(** A [t] that resolves no key: it returns the key itself. *)
Definition demo_t (k : string) : string := k.

Definition demo_args : SearchArgs :=
  mkSearchArgs "home" "recommend" 1 100 "" (-1) "".

(** The identifier minted at clock 0 with the draw ["abcdefgh"]. *)
Definition demo_sid : string := "search_0_abcdefgh".

(** A server with the default expiry of 30 minutes on which one search
    has been answered with 23 items. *)
Definition demo_searched : World :=
  default (init_world 1800000)
    (run demo_t (init_world 1800000)
       [SearchCall 0 demo_args;
        SearchAnswer 0 (UpJson 200 demo_icons 23) "abcdefgh";
        SearchDeliver 0 3000]).

(** ... then the page is opened: connection 0 is live. *)
Definition demo_connected : World :=
  default demo_searched
    (run demo_t demo_searched [Tick 500; WsOpen 0 demo_sid; WsWelcomed 0]).

(** ... and a poll with a 50 ms budget, respectively a 5 s budget, is
    asleep in its first interval. *)
Definition demo_short_poll : World :=
  default demo_connected
    (run demo_t demo_connected [PollCall 0 demo_sid 50]).

(** ... the 50 ms poll, back from its one sleep with the timeout
    result. *)
Definition demo_timed_out : World :=
  default demo_short_poll
    (run demo_t demo_short_poll [Tick 100; PollWake 0]).

Definition demo_polling : World :=
  default demo_connected
    (run demo_t demo_connected [PollCall 0 demo_sid 5000]).

(** ... the 5 s poll, with a selection of two items submitted during
    its first sleep, which is now over. *)
Definition demo_submitted : World :=
  default demo_polling
    (run demo_t demo_polling [HttpSave (SaveBody [3; 5]%nat demo_sid); Tick 100]).

(** ... and the same with the poll's 5 s used up. *)
Definition demo_late : World :=
  default demo_submitted (step demo_t demo_submitted (Tick 5000)).

(** The server when the upstream answer has arrived and the dispatcher
    has not yet written the URL. *)
Definition demo_answered : World :=
  default (init_world 1800000)
    (run demo_t (init_world 1800000)
       [SearchCall 0 demo_args;
        SearchAnswer 0 (UpJson 200 demo_icons 23) "abcdefgh"]).

(** The events that lead to [demo_submitted]. *)
Definition demo_history : list (@Event nat) :=
  [SearchCall 0 demo_args;
   SearchAnswer 0 (UpJson 200 demo_icons 23) "abcdefgh";
   SearchDeliver 0 3000; Tick 500; WsOpen 0 demo_sid; WsWelcomed 0;
   PollCall 0 demo_sid 5000; HttpSave (SaveBody [3; 5]%nat demo_sid);
   Tick 100].

(** Four icons to save: one with SVG text, one without, one whose
    file cannot be opened, and one whose file is opened but not
    written. *)
Definition demo_dicts : list IconDict :=
  [mkIconDict (Some "home") (Some "<svg>1</svg>") None;
   mkIconDict (Some "user") None None;
   mkIconDict (Some "lock") None (Some "<svg>3</svg>");
   mkIconDict (Some "star") (Some "<svg>4</svg>") None].

Definition demo_io (i : nat) : IoOutcome :=
  match i with
  | 2%nat => OpenFails
  | 3%nat => WriteFails ""
  | _ => WriteOk
  end.

(** The directory holds a file for the fourth icon beforehand. *)
Definition demo_fs : gmap string string :=
  {[ "/tmp/icons/star.svg" := "OLD" ]}.

(** * Properties *)

Section Properties.

Context {Icon : Type} (t : string → string).
Implicit Types (c : @CacheManager Icon) (w : @World Icon).
Implicit Types (sel : @SelectionData Icon) (r : @PollResult Icon).

(** ** The expiring key-value store *)

Section store.
Context {A : Type}.
Implicit Types (m : gmap string (CacheEntry A)) (e : CacheEntry A).

Lemma expired_true expiry now e :
  expired expiry now e = true ↔ now - timestamp e > expiry.
Proof. unfold expired. apply bool_decide_eq_true. Qed.

Lemma expired_false expiry now e :
  expired expiry now e = false ↔ now - timestamp e <= expiry.
Proof. unfold expired. rewrite bool_decide_eq_false. lia. Qed.

Lemma get_entry_fresh expiry now k m e :
  m !! k = Some e → now - timestamp e <= expiry →
  get_entry expiry now k m = (Some (data e), m).
Proof.
  intros Hk Hage. unfold get_entry. rewrite Hk.
  apply expired_false in Hage. by rewrite Hage.
Qed.

Lemma get_entry_stale expiry now k m e :
  m !! k = Some e → now - timestamp e > expiry →
  get_entry expiry now k m = (None, delete k m).
Proof.
  intros Hk Hage. unfold get_entry. rewrite Hk.
  apply expired_true in Hage. by rewrite Hage.
Qed.

Lemma get_entry_absent expiry now k m :
  m !! k = None → get_entry expiry now k m = (None, m).
Proof. intros Hk. unfold get_entry. by rewrite Hk. Qed.

Lemma clear_step_lookup expiry now m n k0 j :
  (clear_step expiry now (m, n) k0).1 !! j =
  if decide (j = k0)
  then filter (λ kv, ¬ older_than expiry now kv) m !! j
  else m !! j.
Proof.
  unfold clear_step; simpl. rewrite map_lookup_filter.
  destruct (m !! k0) as [e|] eqn:Hk0; simpl.
  - destruct (expired expiry now e) eqn:He; simpl.
    + apply expired_true in He.
      destruct (decide (j = k0)) as [->|Hne].
      * rewrite lookup_delete_eq, Hk0; simpl.
        by rewrite option_guard_False by (unfold older_than; simpl; lia).
      * by rewrite lookup_delete_ne.
    + apply expired_false in He.
      destruct (decide (j = k0)) as [->|Hne]; [|done].
      rewrite Hk0; simpl.
      by rewrite option_guard_True by (unfold older_than; simpl; lia).
  - destruct (decide (j = k0)) as [->|Hne]; [|done]. by rewrite Hk0.
Qed.

Lemma filter_twice_lookup (P : string * CacheEntry A → Prop)
    `{!∀ x, Decision (P x)} m m1 j :
  m1 !! j = filter P m !! j ∨ m1 !! j = m !! j →
  filter P m1 !! j = filter P m !! j.
Proof.
  rewrite !map_lookup_filter. intros [->| ->]; [|done].
  destruct (m !! j) as [e|]; simpl; [|done].
  case_guard; simpl; [|done]. by rewrite option_guard_True.
Qed.

(** The loop of [clear(expired_only=True)], for any list of keys. *)
Lemma clear_loop_lookup expiry now ks m n k :
  (foldl (clear_step expiry now) (m, n) ks).1 !! k =
  if decide (k ∈ ks)
  then filter (λ kv, ¬ older_than expiry now kv) m !! k
  else m !! k.
Proof.
  revert m n. induction ks as [|k0 ks IH]; intros m n; simpl; [done|].
  pose proof (clear_step_lookup expiry now m n k0 k) as Hstep.
  destruct (clear_step expiry now (m, n) k0) as [m1 n1]. simpl in Hstep.
  rewrite IH.
  destruct (decide (k = k0)) as [->|Hne].
  - rewrite (decide_True (P := k0 ∈ k0 :: ks)) by set_solver.
    destruct (decide (k0 ∈ ks)); [|done].
    apply filter_twice_lookup. by left.
  - destruct (decide (k ∈ ks)).
    + rewrite decide_True by set_solver.
      apply filter_twice_lookup. by right.
    + rewrite decide_False by (intros [?|?]%elem_of_cons; done). done.
Qed.

Lemma clear_loop_count expiry now ks m n :
  let r := foldl (clear_step expiry now) (m, n) ks in
  r.2 = n + Z.of_nat (size m) - Z.of_nat (size r.1).
Proof.
  revert m n. induction ks as [|k0 ks IH]; intros m n; simpl; [lia|].
  unfold clear_step at 2 4; simpl.
  destruct (m !! k0) as [e|] eqn:Hk0; simpl; [|apply IH].
  destruct (expired expiry now e); simpl; [|apply IH].
  specialize (IH (delete k0 m) (n + 1)). simpl in IH. rewrite IH.
  rewrite (map_size_delete_Some k0 m) by eauto.
  assert (size m ≠ 0%nat).
  { intros Hz. apply map_size_empty_inv in Hz. by rewrite Hz in Hk0. }
  lia.
Qed.

Lemma clear_expired_map expiry now m :
  (clear_expired expiry now m).1 =
  filter (λ kv, ¬ older_than expiry now kv) m.
Proof.
  apply map_eq; intros k. unfold clear_expired.
  rewrite clear_loop_lookup.
  destruct (decide (k ∈ map fst (map_to_list m))) as [|Hnot]; [done|].
  rewrite map_lookup_filter.
  destruct (m !! k) as [e|] eqn:Hk; [|done].
  exfalso. apply Hnot. apply list_elem_of_fmap.
  exists (k, e). split; [done|]. by apply elem_of_map_to_list.
Qed.

Lemma size_filter_split (P : string * CacheEntry A → Prop)
    `{!∀ x, Decision (P x)} m :
  size m = (size (filter P m) + size (filter (λ kv, ¬ P kv) m))%nat.
Proof.
  rewrite <- map_size_disj_union by apply map_disjoint_filter_complement.
  by rewrite map_filter_union_complement.
Qed.

Lemma clear_expired_count expiry now m :
  (clear_expired expiry now m).2 =
  Z.of_nat (size (filter (older_than expiry now) m)).
Proof.
  pose proof (clear_loop_count expiry now (map fst (map_to_list m)) m 0) as H.
  simpl in H. fold (clear_expired expiry now m) in H. rewrite H.
  rewrite clear_expired_map.
  rewrite (size_filter_split (older_than expiry now) m). lia.
Qed.
End store.

Lemma get_icon_fresh now k c e :
  _icon_cache c !! k = Some e → now - timestamp e <= expiry_seconds c →
  get_icon now k c = (Some (data e), c).
Proof.
  intros Hk Hage. unfold get_icon.
  rewrite (get_entry_fresh _ _ _ _ e) by done. by destruct c.
Qed.

Lemma get_search_fresh now k c e :
  _search_cache c !! k = Some e → now - timestamp e <= expiry_seconds c →
  get_search now k c = (Some (data e), c).
Proof.
  intros Hk Hage. unfold get_search.
  rewrite (get_entry_fresh _ _ _ _ e) by done. by destruct c.
Qed.

Lemma get_search_absent now k c :
  _search_cache c !! k = None → get_search now k c = (None, c).
Proof.
  intros Hk. unfold get_search.
  rewrite get_entry_absent by done. by destruct c.
Qed.

Lemma get_search_selection now k c :
  _selection_cache (get_search now k c).2 = _selection_cache c.
Proof.
  unfold get_search. by destruct (get_entry _ _ _ _).
Qed.

Lemma size_delete_present {B} (m : gmap string B) k x :
  m !! k = Some x → Z.of_nat (size (delete k m)) = Z.of_nat (size m) - 1.
Proof.
  intros Hk. rewrite (map_size_delete_Some k m) by eauto.
  assert (size m ≠ 0%nat).
  { intros Hz. apply map_size_empty_inv in Hz. by rewrite Hz in Hk. }
  lia.
Qed.

(** C7. In both timestamped namespaces, a [get] of a key that follows
    its [set] while the age of the entry is within the TTL returns the
    value that was set and leaves the store as it is; a [get] of an
    entry whose age exceeds the TTL returns absent, removes the entry in
    that same call, and the [total] that [get_stats] reports for the
    namespace is one less than before. *)
Theorem C7_set_get_expire (c : @CacheManager Icon) (k : string) (now0 now1 : Z) :
  (∀ v, now1 - now0 <= expiry_seconds c →
     get_icon now1 k (set_icon now0 k v c) = (Some v, set_icon now0 k v c))
  ∧ (∀ v, now1 - now0 <= expiry_seconds c →
     get_search now1 k (set_search now0 k v c)
     = (Some v, set_search now0 k v c))
  ∧ (∀ e now2,
       _icon_cache c !! k = Some e → now1 - timestamp e > expiry_seconds c →
       get_icon now1 k c = (None, with_icon_cache (delete k (_icon_cache c)) c)
       ∧ _icon_cache (get_icon now1 k c).2 !! k = None
       ∧ total (icon_cache_stats (get_stats now2 (get_icon now1 k c).2))
         = total (icon_cache_stats (get_stats now1 c)) - 1)
  ∧ (∀ e now2,
       _search_cache c !! k = Some e → now1 - timestamp e > expiry_seconds c →
       get_search now1 k c
       = (None, with_search_cache (delete k (_search_cache c)) c)
       ∧ _search_cache (get_search now1 k c).2 !! k = None
       ∧ total (search_cache_stats (get_stats now2 (get_search now1 k c).2))
         = total (search_cache_stats (get_stats now1 c)) - 1).
Proof.
  split; [|split; [|split]].
  - intros v Hage.
    apply (get_icon_fresh now1 k (set_icon now0 k v c) (mkCacheEntry v now0 k)).
    + simpl. apply lookup_insert_eq.
    + simpl. lia.
  - intros v Hage.
    apply (get_search_fresh now1 k (set_search now0 k v c)
             (mkCacheEntry v now0 k)).
    + simpl. apply lookup_insert_eq.
    + simpl. lia.
  - intros e now2 Hk Hage. unfold get_icon.
    rewrite (get_entry_stale _ _ _ _ e) by done. simpl.
    split; [done|]. split; [apply lookup_delete_eq|].
    by apply size_delete_present with e.
  - intros e now2 Hk Hage. unfold get_search.
    rewrite (get_entry_stale _ _ _ _ e) by done. simpl.
    split; [done|]. split; [apply lookup_delete_eq|].
    by apply size_delete_present with e.
Qed.

(** C8. [clear(expired_only=True)] keeps in the icon and search
    namespaces exactly the entries whose age does not exceed the TTL and
    returns, per namespace, the number of entries older than the TTL
    that it removed; [clear(expired_only=False)] empties both namespaces
    and returns their sizes before the call; either way the selection
    namespace (and the configured expiry) is unchanged. *)
Theorem C8_clear (now : Z) (c : @CacheManager Icon) :
  (let r := clear now true c in
   _icon_cache r.2
   = filter (λ kv, ¬ older_than (expiry_seconds c) now kv) (_icon_cache c)
   ∧ _search_cache r.2
     = filter (λ kv, ¬ older_than (expiry_seconds c) now kv) (_search_cache c)
   ∧ icon_cleared r.1
     = Z.of_nat (size (filter (older_than (expiry_seconds c) now)
                         (_icon_cache c)))
   ∧ search_cleared r.1
     = Z.of_nat (size (filter (older_than (expiry_seconds c) now)
                         (_search_cache c)))
   ∧ icon_cleared r.1
     = Z.of_nat (size (_icon_cache c)) - Z.of_nat (size (_icon_cache r.2))
   ∧ search_cleared r.1
     = Z.of_nat (size (_search_cache c)) - Z.of_nat (size (_search_cache r.2))
   ∧ _selection_cache r.2 = _selection_cache c
   ∧ expiry_seconds r.2 = expiry_seconds c)
  ∧ (let r := clear now false c in
     _icon_cache r.2 = ∅
     ∧ _search_cache r.2 = ∅
     ∧ icon_cleared r.1 = Z.of_nat (size (_icon_cache c))
     ∧ search_cleared r.1 = Z.of_nat (size (_search_cache c))
     ∧ _selection_cache r.2 = _selection_cache c
     ∧ expiry_seconds r.2 = expiry_seconds c).
Proof.
  split; [|by simpl].
  unfold clear.
  pose proof (clear_expired_map (expiry_seconds c) now (_icon_cache c)) as Hmi.
  pose proof (clear_expired_count (expiry_seconds c) now (_icon_cache c)) as Hni.
  pose proof (clear_expired_map (expiry_seconds c) now (_search_cache c)) as Hms.
  pose proof (clear_expired_count (expiry_seconds c) now (_search_cache c))
    as Hns.
  destruct (clear_expired _ _ (_icon_cache c)) as [mi ni].
  destruct (clear_expired _ _ (_search_cache c)) as [ms ns].
  simpl in *. subst.
  repeat split; try done.
  - pose proof (size_filter_split (older_than (expiry_seconds c) now)
                  (_icon_cache c)). lia.
  - pose proof (size_filter_split (older_than (expiry_seconds c) now)
                  (_search_cache c)). lia.
Qed.

(** ** The pagination endpoint *)

Lemma py_slice_window {A} (l : list A) (start len : Z) :
  0 <= start → 0 <= len →
  py_slice l start (start + len) = take (Z.to_nat len) (drop (Z.to_nat start) l).
Proof.
  intros Hs Hl. unfold py_slice, slice_bound.
  rewrite !bool_decide_eq_false_2 by lia.
  set (n := Z.of_nat (length l)).
  destruct (decide (n <= start)) as [Hge|Hlt].
  - rewrite !drop_ge by lia. by rewrite !take_nil.
  - rewrite (Z.min_l start n) by lia.
    destruct (decide (start + len <= n)) as [Hin|Hout].
    + rewrite Z.min_l by lia. f_equal. lia.
    + rewrite Z.min_r by lia.
      rewrite !take_ge; [done | |]; rewrite length_drop; lia.
Qed.

(** [max(1, (n + page_size - 1) // page_size)] is the number of pages
    of [page_size] items needed for [n] items, and 1 when there are
    none. *)
Lemma total_pages_ceil (n ps : Z) :
  0 <= n → 1 <= ps →
  let tp := Z.max 1 ((n + ps - 1) / ps) in
  1 <= tp ∧ (n = 0 → tp = 1) ∧ (0 < n → (tp - 1) * ps < n <= tp * ps).
Proof.
  intros Hn Hps tp. subst tp.
  pose proof (Z.div_mod (n + ps - 1) ps ltac:(lia)) as Hdm.
  pose proof (Z.mod_pos_bound (n + ps - 1) ps ltac:(lia)) as Hmod.
  set (q := (n + ps - 1) / ps) in *.
  set (r := (n + ps - 1) mod ps) in *.
  split; [lia|]. split.
  - intros ->. assert (q = 0) by nia. lia.
  - intros Hpos. assert (1 <= q) by nia. rewrite Z.max_r by lia. nia.
Qed.

(** C6. For a search record cached under [sid] and still within its
    TTL, [page >= 1] and [page_size >= 1], the pagination endpoint
    answers 200 with the items at positions [(page-1)*page_size] up to
    [(page-1)*page_size + page_size] of the cached list (none when the
    page starts past the end), and with [totalPages] the least number of
    pages of [page_size] items that holds the whole list, but at least
    1; the store is not changed.  For a [sid] with no search record the
    answer is the not-found error. *)
Theorem C6_pagination (now : Z) (sid : string) (page ps : Z)
    (c : @CacheManager Icon) :
  (∀ e, _search_cache c !! sid = Some e →
     now - timestamp e <= expiry_seconds c → 1 <= page → 1 <= ps →
     let items := sr_icons (data e) in
     let n := Z.of_nat (length items) in
     let start := (page - 1) * ps in
     ∃ body,
       _handle_cache_api now sid page ps c = (CacheApiOk body, c)
       ∧ cp_icons body = take (Z.to_nat ps) (drop (Z.to_nat start) items)
       ∧ (∀ i : nat, (Z.of_nat i < ps)%Z →
            cp_icons body !! i = items !! (Z.to_nat start + i)%nat)
       ∧ cp_count body = Z.of_nat (length (cp_icons body))
       ∧ (n <= start → cp_icons body = [])
       ∧ 1 <= cp_totalPages body
       ∧ (n = 0 → cp_totalPages body = 1)
       ∧ (0 < n →
            (cp_totalPages body - 1) * ps < n <= cp_totalPages body * ps))
  ∧ (_search_cache c !! sid = None →
     _handle_cache_api now sid page ps c = (CacheApiNotFound, c)).
Proof.
  split.
  - intros e Hk Hage Hpage Hps items n start.
    unfold _handle_cache_api. rewrite (get_search_fresh now sid c e) by done.
    unfold floordiv. rewrite bool_decide_eq_false_2 by lia.
    eexists. split; [reflexivity|]. simpl.
    fold items. fold n. fold start.
    assert (Hstart : 0 <= start) by (subst start; nia).
    change ((page - 1) * ps + ps) with (start + ps).
    rewrite py_slice_window by lia.
    split; [done|]. split.
    { intros i Hi. rewrite lookup_take_lt by lia. by rewrite lookup_drop. }
    split; [done|]. split.
    { intros Hpast. rewrite drop_ge by lia. by rewrite take_nil. }
    apply total_pages_ceil; lia.
  - intros Hk. unfold _handle_cache_api.
    by rewrite get_search_absent.
Qed.

(** ** Session transport: opening a connection *)

(** C9. Opening a bidirectional connection for a non-empty [sid]
    stores a fresh WAITING record (current time, [connected = true], no
    items) under [sid] whatever record, terminal or not, was there
    before, and touches nothing else in the store; for the empty [sid]
    the store is left as it is. *)
Theorem C9_ws_open_overwrites (w : @World Icon) (conn : nat) (sid : string) :
  ws_handlers w !! conn = None →
  ∃ w',
    step t w (WsOpen conn sid) = Some w'
    ∧ ws_handlers w' !! conn = Some (mkWsHandler sid WsWelcome)
    ∧ (sid ≠ "" →
       cache w' = set_selection sid
                    (mkSelectionData WAITING sid (clock w) true []) (cache w)
       ∧ get_selection sid (cache w')
         = Some (mkSelectionData WAITING sid (clock w) true [])
       ∧ (∀ sid', sid' ≠ sid →
            get_selection sid' (cache w') = get_selection sid' (cache w)))
    ∧ (sid = "" → cache w' = cache w).
Proof.
  intros Hfresh. unfold step. rewrite Hfresh.
  eexists. split; [reflexivity|]. simpl.
  split; [apply lookup_insert_eq|].
  unfold ws_connect. split.
  - intros Hsid. rewrite bool_decide_eq_false_2 by done.
    split; [done|]. unfold get_selection; simpl.
    split; [apply lookup_insert_eq|].
    intros sid' Hne. by rewrite lookup_insert_ne.
  - intros ->. by rewrite bool_decide_eq_true_2.
Qed.

(** ** Polling coordinator *)

(** C5. When the search cache holds nothing under [sid], the call is
    left by the not-found error within its first atomic piece: the
    coroutine is not suspended in a sleep, the clock has not moved, and
    the store (so also the selection namespace) is unchanged. *)
Theorem C5_no_search_fails_fast (w : @World Icon) (p : nat) (sid : string)
    (max_wait_ms : Z) :
  polls w !! p = None →
  _search_cache (cache w) !! sid = None →
  _check_selection (clock w) sid max_wait_ms (cache w)
  = (PollRaised (MsgNoSearchFound sid), cache w)
  ∧ ∃ w',
      step t w (PollCall p sid max_wait_ms) = Some w'
      ∧ polls w' !! p = Some (PollRaised (MsgNoSearchFound sid))
      ∧ cache w' = cache w
      ∧ get_selection sid (cache w') = get_selection sid (cache w)
      ∧ clock w' = clock w.
Proof.
  intros Hp Hk.
  assert (Hcall : _check_selection (clock w) sid max_wait_ms (cache w)
                  = (PollRaised (MsgNoSearchFound sid), cache w)).
  { unfold _check_selection. by rewrite get_search_absent. }
  split; [done|].
  unfold step. rewrite Hp, Hcall.
  eexists. split; [reflexivity|]. simpl.
  split; [apply lookup_insert_eq|]. done.
Qed.

(** A loop turn that starts when the deadline has passed. *)
Lemma poll_loop_deadline now sid max_wait_ms start last_log c :
  max_wait_ms <= now - start →
  ∃ r, poll_loop now sid max_wait_ms start last_log c = (PollReturned r, c)
       ∧ is_timeout r.
Proof.
  intros Hlate. unfold poll_loop. rewrite bool_decide_eq_false_2 by lia.
  eexists. split; [reflexivity|]. by repeat split.
Qed.

(** A loop turn that reads no terminal record goes to sleep for one
    polling interval and leaves the store alone. *)
Lemma poll_loop_pending now sid max_wait_ms start last_log c :
  now - start < max_wait_ms →
  (∀ sel, get_selection sid c = Some sel →
          status sel ≠ COMPLETED ∧ status sel ≠ FAILED) →
  ∃ last_log',
    poll_loop now sid max_wait_ms start last_log c
    = (PollSleeping sid max_wait_ms start last_log' (now + check_interval), c).
Proof.
  intros Hin Hsel. unfold poll_loop. rewrite bool_decide_eq_true_2 by lia.
  destruct (get_selection sid c) as [sel|]; [|by eexists].
  destruct (Hsel sel eq_refl) as [Hc Hf].
  rewrite !bool_decide_eq_false_2 by done. by eexists.
Qed.

(** A loop turn that reads a terminal record. *)
Lemma poll_loop_completed now sid max_wait_ms start last_log c sel :
  now - start < max_wait_ms →
  get_selection sid c = Some sel → status sel = COMPLETED →
  poll_loop now sid max_wait_ms start last_log c
  = (PollReturned (mkPollResult true "completed" (Some (selected_icons sel))
                     (Some (Z.of_nat (length (selected_icons sel)))) None),
     delete_selection sid c).
Proof.
  intros Hin Hsel Hst. unfold poll_loop.
  rewrite bool_decide_eq_true_2 by lia. rewrite Hsel.
  by rewrite bool_decide_eq_true_2.
Qed.

Lemma poll_loop_failed now sid max_wait_ms start last_log c sel :
  now - start < max_wait_ms →
  get_selection sid c = Some sel → status sel = FAILED →
  poll_loop now sid max_wait_ms start last_log c
  = (PollReturned (mkPollResult false "failed" None None
                     (Some MsgSelectionFailed)),
     delete_selection sid c).
Proof.
  intros Hin Hsel Hst. unfold poll_loop.
  rewrite bool_decide_eq_true_2 by lia. rewrite Hsel.
  rewrite bool_decide_eq_false_2 by (rewrite Hst; done).
  by rewrite bool_decide_eq_true_2.
Qed.

Lemma get_selection_deleted sid c :
  get_selection sid (delete_selection sid c) = None.
Proof. unfold get_selection; simpl. apply lookup_delete_eq. Qed.

(** The first loop turn, inside the call itself, consumes a terminal
    record in the same way. *)
Lemma check_selection_terminal now sid max_wait_ms c
    (e : CacheEntry (@SearchRecord Icon)) sel :
  _search_cache c !! sid = Some e → now - timestamp e <= expiry_seconds c →
  0 < max_wait_ms →
  get_selection sid c = Some sel →
  (status sel = COMPLETED →
   _check_selection now sid max_wait_ms c
   = (PollReturned (mkPollResult true "completed" (Some (selected_icons sel))
                      (Some (Z.of_nat (length (selected_icons sel)))) None),
      delete_selection sid c))
  ∧ (status sel = FAILED →
     _check_selection now sid max_wait_ms c
     = (PollReturned (mkPollResult false "failed" None None
                        (Some MsgSelectionFailed)),
        delete_selection sid c)).
Proof.
  intros Hk Hage Hpos Hsel. unfold _check_selection.
  rewrite (get_search_fresh now sid c e) by done. split; intros Hst.
  - apply poll_loop_completed; [lia | done | done].
  - apply poll_loop_failed with sel; [lia | done | done].
Qed.

(** A submission is seen by a call made after it, in any world. *)
Lemma submission_observed_anywhere w sid : later_submission_observed t w sid.
Proof.
  intros p' mw d d' items e' Hp Hk Hd Hd' Hage Hpos Hitems Hsid.
  unfold run, step; simpl.
  rewrite !bool_decide_eq_true_2 by done. simpl. rewrite Hp.
  assert (Hempty : is_empty_list items || bool_decide (sid = "") = false).
  { destruct items; [done|]. simpl. by rewrite bool_decide_eq_false_2. }
  rewrite Hempty. simpl.
  destruct (check_selection_terminal (clock w + d + d') sid mw
              (set_selection sid
                 (mkSelectionData COMPLETED sid (clock w + d) true items)
                 (cache w))
              e' (mkSelectionData COMPLETED sid (clock w + d) true items))
    as [Hdone _]; simpl; try done.
  { unfold get_selection; simpl. apply lookup_insert_eq. }
  rewrite (Hdone eq_refl).
  eexists. split; [reflexivity|]. simpl.
  split; [apply lookup_insert_eq|]. apply lookup_delete_eq.
Qed.

(** C4. With a search record in place and a selection record that is
    WAITING or absent, a call with [max_wait_ms] below the polling
    interval never touches the store and ends in the timeout result, a
    normal return: at once when [max_wait_ms <= 0]; otherwise after its
    one sleep, which cannot end before the interval has passed, can end
    at any time from then on, and then returns the timeout result
    whatever the store holds by then, leaving it as it is.  In both
    cases a submission made after the timeout is returned by a fresh
    call of the tool. *)
Theorem C4_short_wait_times_out (w : @World Icon) (p : nat) (sid : string)
    (max_wait_ms : Z) (e : CacheEntry (@SearchRecord Icon)) :
  polls w !! p = None →
  _search_cache (cache w) !! sid = Some e →
  clock w - timestamp e <= expiry_seconds (cache w) →
  max_wait_ms < check_interval →
  (∀ sel, get_selection sid (cache w) = Some sel → status sel = WAITING) →
  ∃ w1,
    step t w (PollCall p sid max_wait_ms) = Some w1
    ∧ cache w1 = cache w
    ∧ (max_wait_ms <= 0 →
       ∃ r, polls w1 !! p = Some (PollReturned r) ∧ is_timeout r
            ∧ later_submission_observed t w1 sid)
    ∧ (0 < max_wait_ms →
       polls w1 !! p
       = Some (PollSleeping sid max_wait_ms (clock w) (clock w)
                 (clock w + check_interval)))
    ∧ (∀ w2,
         polls w2 !! p
         = Some (PollSleeping sid max_wait_ms (clock w) (clock w)
                   (clock w + check_interval)) →
         (clock w2 < clock w + check_interval → step t w2 (PollWake p) = None)
         ∧ (clock w + check_interval <= clock w2 →
            ∃ w3 r,
              step t w2 (PollWake p) = Some w3
              ∧ polls w3 !! p = Some (PollReturned r)
              ∧ is_timeout r
              ∧ cache w3 = cache w2
              ∧ later_submission_observed t w3 sid)).
Proof.
  intros Hp Hk Hage Hshort Hsel.
  unfold step at 1. rewrite Hp. unfold _check_selection.
  rewrite (get_search_fresh (clock w) sid (cache w) e) by done.
  eexists. split; [reflexivity|].
  unfold with_poll; simpl. rewrite lookup_insert_eq.
  split; [|split; [|split]].
  - destruct (decide (max_wait_ms <= 0)) as [Hle|Hgt].
    + destruct (poll_loop_deadline (clock w) sid max_wait_ms (clock w)
                  (clock w) (cache w)) as (r & -> & _); [lia | done].
    + destruct (poll_loop_pending (clock w) sid max_wait_ms (clock w)
                  (clock w) (cache w)) as (ll & ->); [lia | | done].
      intros sel Hs. rewrite (Hsel sel Hs). done.
  - intros Hle.
    destruct (poll_loop_deadline (clock w) sid max_wait_ms (clock w)
                (clock w) (cache w)) as (r & -> & Hr); [lia|].
    exists r. split; [done|]. split; [done|].
    apply submission_observed_anywhere.
  - intros Hgt. unfold poll_loop.
    rewrite bool_decide_eq_true_2 by lia.
    unfold log_interval. rewrite (bool_decide_eq_false_2 (_ >= _)) by lia.
    destruct (get_selection sid (cache w)) as [sel|] eqn:Hs; [|done].
    rewrite (Hsel sel eq_refl). by rewrite !bool_decide_eq_false_2.
  - intros w2 Hasleep. unfold step. rewrite Hasleep. split.
    + intros Hearly. by rewrite bool_decide_eq_false_2 by lia.
    + intros Hlate. rewrite bool_decide_eq_true_2 by lia.
      destruct (poll_loop_deadline (clock w2) sid max_wait_ms (clock w)
                  (clock w) (cache w2)) as (r & Hloop & Hr).
      { unfold check_interval in *. lia. }
      eexists _, r. split; [reflexivity|].
      unfold with_poll; simpl. rewrite Hloop; simpl.
      split; [apply lookup_insert_eq|]. split; [done|]. split; [done|].
      apply submission_observed_anywhere.
Qed.

(** X1. A submission is seen by the next call: this is what a poll that
    timed out leaves possible. *)
Lemma fresh_poll_sees_submission w (p : nat) (sid : string) (max_wait_ms : Z)
    (items : list Icon) (e : CacheEntry (@SearchRecord Icon)) :
  polls w !! p = None →
  _search_cache (cache w) !! sid = Some e →
  clock w - timestamp e <= expiry_seconds (cache w) →
  0 < max_wait_ms → items ≠ [] → sid ≠ "" →
  ∃ w',
    run t w [HttpSave (SaveBody items sid); PollCall p sid max_wait_ms]
    = Some w'
    ∧ polls w' !! p
      = Some (PollReturned
                (mkPollResult true "completed" (Some items)
                   (Some (Z.of_nat (length items))) None))
    ∧ get_selection sid (cache w') = None.
Proof.
  intros Hp Hk Hage Hpos Hitems Hsid.
  unfold run, step; simpl. rewrite Hp.
  assert (Hempty : is_empty_list items || bool_decide (sid = "") = false).
  { destruct items; [done|]. simpl. by rewrite bool_decide_eq_false_2. }
  rewrite Hempty. simpl.
  destruct (check_selection_terminal (clock w) sid max_wait_ms
              (set_selection sid
                 (mkSelectionData COMPLETED sid (clock w) true items) (cache w))
              e (mkSelectionData COMPLETED sid (clock w) true items))
    as [Hdone _]; simpl; try done.
  { unfold get_selection; simpl. apply lookup_insert_eq. }
  rewrite (Hdone eq_refl).
  eexists. split; [reflexivity|]. simpl.
  split; [apply lookup_insert_eq|]. apply lookup_delete_eq.
Qed.

(** C3 (as the code has it). A poll that wakes before its deadline and
    reads a terminal record under [sid] returns that outcome -- success
    with the submitted items for COMPLETED, failure for FAILED -- and
    has deleted the record when it returns.  A later call for the same
    [sid] is checked against the search cache only: while the search
    record is still cached within its TTL the call is not refused with
    not-found; it finds no selection record, leaves the store as it is,
    and either goes to sleep for a polling interval (positive
    [max_wait_ms]) or returns the timeout result. *)
Theorem C3_terminal_consumed (w : @World Icon) (p p' : nat) (sid : string)
    (max_wait_ms start last_log wake max_wait_ms' : Z) (sel : @SelectionData Icon) :
  polls w !! p = Some (PollSleeping sid max_wait_ms start last_log wake) →
  wake <= clock w → clock w - start < max_wait_ms →
  get_selection sid (cache w) = Some sel →
  status sel = COMPLETED ∨ status sel = FAILED →
  ∃ w1 r,
    step t w (PollWake p) = Some w1
    ∧ polls w1 !! p = Some (PollReturned r)
    ∧ (status sel = COMPLETED →
       r = mkPollResult true "completed" (Some (selected_icons sel))
             (Some (Z.of_nat (length (selected_icons sel)))) None)
    ∧ (status sel = FAILED →
       r = mkPollResult false "failed" None None (Some MsgSelectionFailed))
    ∧ cache w1 = delete_selection sid (cache w)
    ∧ get_selection sid (cache w1) = None
    ∧ (∀ e, polls w1 !! p' = None →
         _search_cache (cache w1) !! sid = Some e →
         clock w1 - timestamp e <= expiry_seconds (cache w1) →
         ∃ w2 pc,
           step t w1 (PollCall p' sid max_wait_ms') = Some w2
           ∧ polls w2 !! p' = Some pc
           ∧ pc ≠ PollRaised (MsgNoSearchFound sid)
           ∧ cache w2 = cache w1
           ∧ (0 < max_wait_ms' →
              pc = PollSleeping sid max_wait_ms' (clock w1) (clock w1)
                     (clock w1 + check_interval))
           ∧ (max_wait_ms' <= 0 → ∃ r', pc = PollReturned r' ∧ is_timeout r')).
Proof.
  intros Hp Hwake Hin Hsel Hterm.
  assert (Hloop : ∃ r,
    poll_loop (clock w) sid max_wait_ms start last_log (cache w)
    = (PollReturned r, delete_selection sid (cache w))
    ∧ (status sel = COMPLETED →
       r = mkPollResult true "completed" (Some (selected_icons sel))
             (Some (Z.of_nat (length (selected_icons sel)))) None)
    ∧ (status sel = FAILED →
       r = mkPollResult false "failed" None None (Some MsgSelectionFailed))).
  { destruct Hterm as [Hc|Hf].
    - eexists. split; [by apply poll_loop_completed|].
      split; [done|]. rewrite Hc. done.
    - eexists. split; [by apply poll_loop_failed with sel|].
      split; [|done]. rewrite Hf. done. }
  destruct Hloop as (r & Hloop & Hrc & Hrf).
  unfold step at 1. rewrite Hp. rewrite bool_decide_eq_true_2 by done.
  rewrite Hloop.
  eexists _, r. split; [reflexivity|].
  unfold with_poll; simpl.
  split; [apply lookup_insert_eq|].
  split; [done|]. split; [done|]. split; [done|].
  split; [apply get_selection_deleted|].
  intros e Hp' Hk Hage. unfold step. simpl in *.
  rewrite Hp'. unfold _check_selection.
  rewrite (get_search_fresh (clock w) sid _ e) by done.
  set (c1 := delete_selection sid (cache w)) in *.
  assert (Hnone : get_selection sid c1 = None) by apply get_selection_deleted.
  destruct (decide (0 < max_wait_ms')) as [Hpos|Hnon].
  - destruct (poll_loop_pending (clock w) sid max_wait_ms' (clock w) (clock w)
                c1) as (ll & Hl); [lia | by rewrite Hnone |].
    assert (ll = clock w) as ->.
    { unfold poll_loop in Hl. rewrite bool_decide_eq_true_2 in Hl by lia.
      rewrite Hnone in Hl. unfold log_interval in Hl.
      rewrite bool_decide_eq_false_2 in Hl by lia. congruence. }
    rewrite Hl. eexists _, _. split; [reflexivity|]. simpl.
    split; [apply lookup_insert_eq|].
    split; [done|]. split; [done|]. split; [done|]. lia.
  - destruct (poll_loop_deadline (clock w) sid max_wait_ms' (clock w) (clock w)
                c1) as (r' & Hl & Hr'); [lia|].
    rewrite Hl. eexists _, _. split; [reflexivity|]. simpl.
    split; [apply lookup_insert_eq|].
    split; [done|]. split; [done|]. split; [lia|].
    intros _. by exists r'.
Qed.

(** ** Session transport: disconnect and grace period *)

Lemma step_clock_mono w ev w' : step t w ev = Some w' → clock w <= clock w'.
Proof.
  unfold step. intros Hstep.
  destruct ev; repeat case_match; simplify_eq; simpl;
    repeat match goal with
           | H : bool_decide _ = true |- _ => apply bool_decide_eq_true in H
           end; lia.
Qed.

(** Only the handler itself moves on from its grace period, and only
    to the end. *)
Lemma step_closing w ev w' conn sid wake :
  step t w ev = Some w' → closing w conn sid wake → closing w' conn sid wake.
Proof.
  unfold step, closing. intros Hstep Hc.
  destruct ev; repeat case_match; simplify_eq; simpl; try done;
    match goal with
    | |- context [<[?c := _]> _ !! conn] =>
        destruct (decide (c = conn)) as [->|?];
        [ rewrite !lookup_insert_eq; destruct Hc; simplify_eq; auto
        | rewrite !lookup_insert_ne by done; done ]
    end.
Qed.

Lemma run_closing w evs w' conn sid wake :
  run t w evs = Some w' → closing w conn sid wake →
  closing w' conn sid wake ∧ clock w <= clock w'.
Proof.
  revert w. induction evs as [|ev evs IH]; intros w; simpl.
  - intros [= <-] Hc. split; [done | lia].
  - destruct (step t w ev) as [w1|] eqn:Hstep; [|done].
    intros Hrun Hc.
    destruct (IH w1 Hrun (step_closing _ _ _ _ _ _ Hstep Hc)) as [Hc' Hle].
    split; [done|]. apply step_clock_mono in Hstep. lia.
Qed.

Lemma ws_after_grace_waiting now sid c :
  is_waiting (get_selection sid c) = true →
  ws_after_grace now sid c
  = set_selection sid (mkSelectionData FAILED sid now false []) c.
Proof. intros H. unfold ws_after_grace. by rewrite H. Qed.

Lemma ws_after_grace_other now sid c :
  is_waiting (get_selection sid c) = false → ws_after_grace now sid c = c.
Proof. intros H. unfold ws_after_grace. by rewrite H. Qed.

(** C1. When the closure of a connection is detected while the record
    of its non-empty [sid] is WAITING, that step writes nothing and the
    handler goes to sleep for the grace period.  Whatever runs in
    between, the handler's next piece cannot run before 2000 ms have
    passed and can run at any time from then on; it reads the record
    again and writes FAILED (not connected, no items) exactly when the
    record it then finds is WAITING; otherwise it leaves the store as it
    is, so a COMPLETED record written by a submission in between is
    still there afterwards. *)
Theorem C1_grace_recheck (w : @World Icon) (conn : nat) (sid : string)
    (sel : @SelectionData Icon) :
  ws_handlers w !! conn = Some (mkWsHandler sid WsListening) →
  sid ≠ "" →
  get_selection sid (cache w) = Some sel → status sel = WAITING →
  ∃ w1,
    step t w (WsClose conn) = Some w1
    ∧ cache w1 = cache w
    ∧ ws_handlers w1 !! conn
      = Some (mkWsHandler sid (WsGrace (clock w + grace_period)))
    ∧ ∀ evs w2,
        run t w1 evs = Some w2 →
        (clock w2 < clock w + grace_period →
         step t w2 (WsGraceOver conn) = None)
        ∧ (ws_handlers w2 !! conn
           = Some (mkWsHandler sid (WsGrace (clock w + grace_period))) →
           clock w + grace_period <= clock w2 →
           is_Some (step t w2 (WsGraceOver conn)))
        ∧ ∀ w3,
            step t w2 (WsGraceOver conn) = Some w3 →
            clock w + grace_period <= clock w2
            ∧ (is_waiting (get_selection sid (cache w2)) = true →
               cache w3
               = set_selection sid
                   (mkSelectionData FAILED sid (clock w2) false [])
                   (cache w2))
            ∧ (is_waiting (get_selection sid (cache w2)) = false →
               cache w3 = cache w2)
            ∧ (∀ sel2, get_selection sid (cache w2) = Some sel2 →
                 status sel2 = COMPLETED →
                 get_selection sid (cache w3) = Some sel2).
Proof.
  intros Hh Hsid Hsel Hst.
  assert (Hdisc : ws_disconnect sid (cache w) = true).
  { unfold ws_disconnect. rewrite bool_decide_eq_false_2 by done.
    rewrite Hsel. simpl. by rewrite bool_decide_eq_true_2. }
  unfold step at 1. rewrite Hh, Hdisc.
  eexists. split; [reflexivity|]. simpl.
  split; [done|]. split; [apply lookup_insert_eq|].
  intros evs w2 Hrun.
  apply run_closing with (conn := conn) (sid := sid)
    (wake := clock w + grace_period) in Hrun;
    [|left; simpl; apply lookup_insert_eq].
  simpl in Hrun. destruct Hrun as [Hc Hclock].
  unfold step.
  destruct Hc as [Hg|Hcl]; rewrite ?Hg, ?Hcl.
  - split; [|split].
    + intros Hearly. by rewrite bool_decide_eq_false_2 by lia.
    + intros _ Hlate. by rewrite bool_decide_eq_true_2 by lia.
    + intros w3. case_bool_decide as Hlate; [|done].
      intros [= <-]. simpl. split; [done|]. split; [|split].
      * apply ws_after_grace_waiting.
      * apply ws_after_grace_other.
      * intros sel2 Hsel2 Hc2. rewrite ws_after_grace_other; [done|].
        rewrite Hsel2. simpl. rewrite bool_decide_eq_false_2; [done|].
        rewrite Hc2. done.
  - split; [done|]. split; [|done]. intros [=].
Qed.

(** C2 (as the code has it). When a connection for a non-empty [sid]
    is closed while the record is WAITING and a new connection for the
    same [sid] is opened before the 2000 ms have passed, the reopening
    writes a fresh WAITING record; nothing else touching it, that record
    is what the closed connection's re-check finds once the grace period
    is over, and the re-check overwrites it with FAILED although the
    new connection is still open. *)
Theorem C2_reconnect_then_failed (w : @World Icon) (c1 c2 : nat) (sid : string)
    (sel : @SelectionData Icon) (d1 d2 : Z) :
  ws_handlers w !! c1 = Some (mkWsHandler sid WsListening) →
  ws_handlers w !! c2 = None →
  sid ≠ "" →
  get_selection sid (cache w) = Some sel → status sel = WAITING →
  0 <= d1 < grace_period → 0 <= d2 → grace_period <= d1 + d2 →
  ∃ w3 w5,
    run t w [WsClose c1; Tick d1; WsOpen c2 sid; WsWelcomed c2] = Some w3
    ∧ get_selection sid (cache w3)
      = Some (mkSelectionData WAITING sid (clock w + d1) true [])
    ∧ run t w3 [Tick d2; WsGraceOver c1] = Some w5
    ∧ get_selection sid (cache w5)
      = Some (mkSelectionData FAILED sid (clock w + d1 + d2) false [])
    ∧ ws_handlers w5 !! c2 = Some (mkWsHandler sid WsListening).
Proof.
  intros Hh1 Hh2 Hsid Hsel Hst [Hd1 Hd1'] Hd2 Hsum.
  assert (Hne : c1 ≠ c2) by (intros ->; congruence).
  assert (Hdisc : ws_disconnect sid (cache w) = true).
  { unfold ws_disconnect. rewrite bool_decide_eq_false_2 by done.
    rewrite Hsel. simpl. by rewrite bool_decide_eq_true_2. }
  unfold run, step; simpl.
  rewrite Hh1, Hdisc. simpl.
  rewrite bool_decide_eq_true_2 by done. simpl.
  rewrite lookup_insert_ne by done. rewrite Hh2. simpl.
  rewrite lookup_insert_eq.
  eexists _, _. split; [reflexivity|]. simpl.
  unfold ws_connect. rewrite bool_decide_eq_false_2 by done.
  unfold get_selection at 1; simpl. rewrite lookup_insert_eq.
  split; [done|].
  rewrite bool_decide_eq_true_2 by done. simpl.
  rewrite !lookup_insert_ne by done. rewrite lookup_insert_eq.
  rewrite bool_decide_eq_true_2 by lia.
  split; [reflexivity|]. simpl.
  rewrite ws_after_grace_waiting.
  - unfold get_selection; simpl. rewrite lookup_insert_eq.
    split; [done|].
    rewrite lookup_insert_ne by done. apply lookup_insert_eq.
  - unfold get_selection; simpl. by rewrite lookup_insert_eq.
Qed.

(** ** Cached search *)

Lemma search_icons_valid now (a : SearchArgs) c pc c' :
  search_icons now a c = (pc, c') →
  (∀ e, pc ≠ SearchRaised e) →
  1 <= arg_page a ∧ 1 <= arg_page_size a <= 100.
Proof.
  unfold search_icons. intros H Hok.
  case_bool_decide; [naive_solver|].
  case_bool_decide; simpl in H; [naive_solver|].
  case_bool_decide; simpl in H; [naive_solver|]. lia.
Qed.

Lemma search_icons_hit now (a : SearchArgs) c (e : CacheEntry ref) :
  1 <= arg_page a → 1 <= arg_page_size a <= 100 →
  _icon_cache c !! cache_key a = Some e →
  now - timestamp e <= expiry_seconds c →
  search_icons now a c = (SearchReturned (data e), c).
Proof.
  intros Hp Hps Hk Hage. unfold search_icons.
  rewrite !bool_decide_eq_false_2 by lia. simpl.
  by rewrite (get_icon_fresh now (cache_key a) c e).
Qed.

Lemma search_icons_resume_caches now (a : SearchArgs) resp rand_str
    (h : gmap ref (@SearchResult Icon)) c ref_ h1 c1 :
  search_icons_resume t now a resp rand_str h c = (SearchReturned ref_, h1, c1) →
  _icon_cache c1 !! cache_key a = Some (mkCacheEntry ref_ now (cache_key a))
  ∧ expiry_seconds c1 = expiry_seconds c
  ∧ h !! ref_ = None
  ∧ ∃ res, h1 !! ref_ = Some res
           ∧ search_id res = _generate_search_id now rand_str
           ∧ is_Some (_search_cache c1 !! search_id res).
Proof.
  unfold search_icons_resume. intros H.
  destruct resp as [| |code icons_data total]; try done.
  case_bool_decide; [done|]. simplify_eq. simpl.
  split; [apply lookup_insert_eq|]. split; [done|]. split.
  - apply not_elem_of_dom. apply is_fresh.
  - eexists. split; [apply lookup_insert_eq|]. simpl.
    split; [done|]. rewrite lookup_insert_eq. eauto.
Qed.

(** C10. Take a [search_icons] call that missed the cache, got its
    answer from upstream at [now1] and returned the result object [res]
    it built and cached.  A second call with the same parameters, made
    at [now2] on a store that still holds that cache entry, with the
    entry's age within the TTL, returns in its first piece -- it never
    reaches the upstream request nor the code that mints an identifier
    -- the very same object, hence the same [search_id], and leaves the
    store, search records included, exactly as it found it. *)
Theorem C10_repeat_search_cached (now0 now1 now2 : Z) (a : SearchArgs)
    (c0 c0' cm c1 c2 : @CacheManager Icon) (resp : Upstream)
    (rand_str : string) (h h1 : gmap ref (@SearchResult Icon)) (res : ref) :
  search_icons now0 a c0 = (SearchAwaitPost a, c0') →
  search_icons_resume t now1 a resp rand_str h cm
  = (SearchReturned res, h1, c1) →
  _icon_cache c2 !! cache_key a = _icon_cache c1 !! cache_key a →
  now2 - now1 <= expiry_seconds c2 →
  search_icons now2 a c2 = (SearchReturned res, c2)
  ∧ ∃ obj, h1 !! res = Some obj
           ∧ search_id obj = _generate_search_id now1 rand_str.
Proof.
  intros Hfirst Hresume Hsame Hage.
  apply search_icons_valid in Hfirst as [Hp Hps]; [|done].
  apply search_icons_resume_caches in Hresume
    as (Hentry & _ & _ & obj & Hobj & Hid & _).
  split; [|by exists obj].
  rewrite Hentry in Hsame.
  by apply (search_icons_hit now2 a c2 (mkCacheEntry res now1 (cache_key a))).
Qed.

(** ** More on the expiring key-value store *)

Lemma filter_length_perm {B} (f : B → bool) (l l' : list B) :
  l ≡ₚ l' → length (List.filter f l) = length (List.filter f l').
Proof.
  induction 1 as [|x l l' _ IH|x y l|l l' l'' _ IH1 _ IH2]; simpl.
  - done.
  - destruct (f x); simpl; by rewrite IH.
  - destruct (f x), (f y); done.
  - by rewrite IH1.
Qed.

(** The generator expression of [get_stats] counts the entries that are
    not older than the TTL. *)
Lemma count_valid_size {A} expiry now (m : gmap string (CacheEntry A)) :
  count_valid expiry now m
  = Z.of_nat (size (filter (λ kv, ¬ older_than expiry now kv) m)).
Proof.
  unfold count_valid. f_equal.
  induction m as [|k e m Hk IH] using map_ind.
  - by rewrite map_to_list_empty, map_filter_empty, map_size_empty.
  - rewrite (filter_length_perm _ _ (map snd ((k, e) :: map_to_list m)))
      by (apply Permutation_map, map_to_list_insert; done).
    simpl. rewrite map_filter_insert.
    case_bool_decide as Hage; case_decide as Hold;
      unfold older_than in Hold; simpl in Hold; try lia.
    + simpl. rewrite IH.
      rewrite map_size_insert_None; [done|].
      rewrite map_lookup_filter, Hk. done.
    + rewrite IH. by rewrite delete_id.
Qed.

(** [clear(expired_only=True)] in closed form. *)
Lemma clear_expired_only now (c : @CacheManager Icon) :
  clear now true c
  = (mkClearResult
       (Z.of_nat (size (filter (older_than (expiry_seconds c) now)
                          (_icon_cache c))))
       (Z.of_nat (size (filter (older_than (expiry_seconds c) now)
                          (_search_cache c)))),
     mkCacheManager (expiry_seconds c)
       (filter (λ kv, ¬ older_than (expiry_seconds c) now kv) (_icon_cache c))
       (filter (λ kv, ¬ older_than (expiry_seconds c) now kv)
          (_search_cache c))
       (_selection_cache c)).
Proof.
  unfold clear.
  pose proof (clear_expired_map (expiry_seconds c) now (_icon_cache c)) as Hmi.
  pose proof (clear_expired_count (expiry_seconds c) now (_icon_cache c)) as Hni.
  pose proof (clear_expired_map (expiry_seconds c) now (_search_cache c)) as Hms.
  pose proof (clear_expired_count (expiry_seconds c) now (_search_cache c))
    as Hns.
  destruct (clear_expired _ _ (_icon_cache c)) as [mi ni].
  destruct (clear_expired _ _ (_search_cache c)) as [ms ns].
  simpl in Hmi, Hni, Hms, Hns. by rewrite Hmi, Hni, Hms, Hns.
Qed.

(** X2. At one instant [get_stats] and [clear(expired_only=True)] agree
    on what is expired: the counts [clear] returns are the [expired]
    counts of the statistics, and what it leaves is as many entries as
    the statistics call valid. *)
Theorem stats_clear_agree (now : Z) (c : @CacheManager Icon) :
  let st := get_stats now c in
  let r := clear now true c in
  icon_cleared r.1 = expired_count (icon_cache_stats st)
  ∧ search_cleared r.1 = expired_count (search_cache_stats st)
  ∧ Z.of_nat (size (_icon_cache r.2)) = valid (icon_cache_stats st)
  ∧ Z.of_nat (size (_search_cache r.2)) = valid (search_cache_stats st)
  ∧ valid (icon_cache_stats st) + expired_count (icon_cache_stats st)
    = total (icon_cache_stats st)
  ∧ valid (search_cache_stats st) + expired_count (search_cache_stats st)
    = total (search_cache_stats st).
Proof.
  rewrite clear_expired_only. simpl.
  rewrite !count_valid_size.
  pose proof (size_filter_split (older_than (expiry_seconds c) now)
                (_icon_cache c)).
  pose proof (size_filter_split (older_than (expiry_seconds c) now)
                (_search_cache c)).
  repeat split; lia.
Qed.

Lemma filter_older_of_kept {A} expiry now (m : gmap string (CacheEntry A)) :
  filter (older_than expiry now)
    (filter (λ kv, ¬ older_than expiry now kv) m) = ∅.
Proof.
  apply map_eq; intros k. rewrite lookup_empty.
  apply eq_None_not_Some. intros [e He].
  apply map_lookup_filter_Some in He as [He Hold].
  apply map_lookup_filter_Some in He as [_ Hnot]. done.
Qed.

Lemma filter_kept_of_kept {A} expiry now (m : gmap string (CacheEntry A)) :
  filter (λ kv, ¬ older_than expiry now kv)
    (filter (λ kv, ¬ older_than expiry now kv) m)
  = filter (λ kv, ¬ older_than expiry now kv) m.
Proof.
  apply map_eq; intros k. apply option_eq; intros e.
  rewrite !map_lookup_filter_Some. tauto.
Qed.

(** X3. Right after [clear(expired_only=True)] the statistics of the
    same instant show no expired entry in either timestamped namespace,
    and clearing expired entries once more removes nothing and leaves
    the store as it is. *)
Theorem clear_expired_idempotent (now : Z) (c : @CacheManager Icon) :
  let c' := (clear now true c).2 in
  expired_count (icon_cache_stats (get_stats now c')) = 0
  ∧ expired_count (search_cache_stats (get_stats now c')) = 0
  ∧ clear now true c' = (mkClearResult 0 0, c').
Proof.
  cbv zeta. rewrite (clear_expired_only now c). cbn [snd].
  rewrite clear_expired_only. simpl.
  rewrite !count_valid_size. simpl.
  rewrite !filter_kept_of_kept, !filter_older_of_kept, !map_size_empty.
  split; [lia|]. split; [lia|]. done.
Qed.

Lemma get_entry_is_Some {A} expiry now k (m : gmap string (CacheEntry A)) :
  is_Some (get_entry expiry now k m).1
  ↔ is_Some (filter (λ kv, ¬ older_than expiry now kv) m !! k).
Proof.
  unfold get_entry. rewrite map_lookup_filter.
  destruct (m !! k) as [e|] eqn:Hk; simpl; [|done].
  destruct (expired expiry now e) eqn:He.
  - apply expired_true in He.
    rewrite option_guard_False by (intros Hn; apply Hn; exact He).
    simpl. split; intros [? [=]].
  - apply expired_false in He.
    rewrite option_guard_True by (unfold older_than; simpl; lia).
    simpl. split; eauto.
Qed.

(** X4. The lazy expiry of [get] and the sweep of [clear] draw the same
    line: a key is returned by [get_icon] (or [get_search]) exactly when
    a [clear(expired_only=True)] at that instant would keep its entry;
    in particular an entry whose age equals the TTL is still served and
    is not swept. *)
Theorem get_agrees_with_clear (now : Z) (k : string) (c : @CacheManager Icon) :
  (is_Some (get_icon now k c).1
   ↔ is_Some (_icon_cache (clear now true c).2 !! k))
  ∧ (is_Some (get_search now k c).1
     ↔ is_Some (_search_cache (clear now true c).2 !! k))
  ∧ (∀ e, _icon_cache c !! k = Some e →
          now - timestamp e = expiry_seconds c →
          get_icon now k c = (Some (data e), c)
          ∧ _icon_cache (clear now true c).2 !! k = Some e)
  ∧ (∀ e, _search_cache c !! k = Some e →
          now - timestamp e = expiry_seconds c →
          get_search now k c = (Some (data e), c)
          ∧ _search_cache (clear now true c).2 !! k = Some e).
Proof.
  rewrite clear_expired_only. simpl.
  split; [|split; [|split]].
  - unfold get_icon.
    pose proof (get_entry_is_Some (expiry_seconds c) now k (_icon_cache c)).
    by destruct (get_entry _ _ _ _).
  - unfold get_search.
    pose proof (get_entry_is_Some (expiry_seconds c) now k (_search_cache c)).
    by destruct (get_entry _ _ _ _).
  - intros e Hk Hage. split; [apply get_icon_fresh; [done | lia]|].
    apply map_lookup_filter_Some. split; [done|].
    unfold older_than; simpl. lia.
  - intros e Hk Hage. split; [apply get_search_fresh; [done | lia]|].
    apply map_lookup_filter_Some. split; [done|].
    unfold older_than; simpl. lia.
Qed.

(** X5. The selection namespace is a plain dictionary without expiry:
    a record is read back as it was set, is gone after
    [delete_selection], deleting an unknown key is a silent no-op, and
    neither reads nor writes of the two timestamped namespaces, at
    whatever time, change what [get_selection] returns. *)
Theorem selection_namespace_plain (sid sid' : string)
    (d : @SelectionData Icon) (c : @CacheManager Icon) :
  get_selection sid (set_selection sid d c) = Some d
  ∧ (sid' ≠ sid →
     get_selection sid' (set_selection sid d c) = get_selection sid' c
     ∧ get_selection sid' (delete_selection sid c) = get_selection sid' c)
  ∧ get_selection sid (delete_selection sid c) = None
  ∧ (get_selection sid c = None → delete_selection sid c = c)
  ∧ (∀ now k v rec,
       get_selection sid (get_icon now k c).2 = get_selection sid c
       ∧ get_selection sid (get_search now k c).2 = get_selection sid c
       ∧ get_selection sid (set_icon now k v c) = get_selection sid c
       ∧ get_selection sid (set_search now k rec c) = get_selection sid c).
Proof.
  unfold get_selection, set_selection, delete_selection; simpl.
  split; [apply lookup_insert_eq|]. split.
  { intros Hne. by rewrite lookup_insert_ne, lookup_delete_ne. }
  split; [apply lookup_delete_eq|]. split.
  { intros Hnone. rewrite delete_id by done. by destruct c. }
  intros now k v rec. unfold get_icon, get_search.
  destruct (get_entry _ _ _ (_icon_cache c)), (get_entry _ _ _ (_search_cache c)).
  done.
Qed.

(** ** More on the pagination and submission routes *)

Lemma take_add_drop {B} (l : list B) (n m : nat) :
  take (n + m) l = take n l ++ take m (drop n l).
Proof.
  revert l. induction n as [|n IH]; intros [|x l]; simpl;
    try done; [by rewrite take_nil | by rewrite IH].
Qed.

(** [n] consecutive windows of [ps] items are the first [n * ps] items. *)
Lemma windows_concat {B} (l : list B) (ps n : nat) :
  mjoin ((λ i : nat, take ps (drop (i * ps) l)) <$> seq 0 n) = take (n * ps) l.
Proof.
  induction n as [|n IH]; [done|].
  rewrite seq_S, fmap_app, join_app, IH. simpl. rewrite app_nil_r.
  rewrite <- take_add_drop. f_equal. lia.
Qed.

Lemma page_items_window now sid ps (c : @CacheManager Icon)
    (e : CacheEntry (@SearchRecord Icon)) (i : nat) :
  _search_cache c !! sid = Some e → now - timestamp e <= expiry_seconds c →
  1 <= ps →
  page_items now sid ps c (Z.of_nat (S i))
  = take (Z.to_nat ps) (drop (i * Z.to_nat ps) (sr_icons (data e))).
Proof.
  intros Hk Hage Hps. unfold page_items, _handle_cache_api.
  rewrite (get_search_fresh now sid c e) by done.
  unfold floordiv. rewrite bool_decide_eq_false_2 by lia. simpl.
  replace ((Z.of_nat (S i) - 1) * ps + ps) with (Z.of_nat i * ps + ps) by lia.
  replace ((Z.of_nat (S i) - 1) * ps) with (Z.of_nat i * ps) by lia.
  rewrite py_slice_window by nia. do 2 f_equal. nia.
Qed.

(** X6. For a cached, unexpired search and [page_size >= 1], the pages
    the route serves are a partition of the cached list: pages 1 to
    [totalPages], one after the other, give back exactly the cached
    items, in order, and no page holds more than [page_size] items. *)
Theorem pages_cover_the_list (now : Z) (sid : string) (ps : Z)
    (c : @CacheManager Icon) (e : CacheEntry (@SearchRecord Icon)) :
  _search_cache c !! sid = Some e → now - timestamp e <= expiry_seconds c →
  1 <= ps →
  ∃ body,
    _handle_cache_api now sid 1 ps c = (CacheApiOk body, c)
    ∧ mjoin (page_items now sid ps c
               <$> (Z.of_nat <$> seq 1 (Z.to_nat (cp_totalPages body))))
      = sr_icons (data e)
    ∧ ∀ p, Z.of_nat (length (page_items now sid ps c p)) <= ps.
Proof.
  intros Hk Hage Hps.
  set (l := sr_icons (data e)).
  exists (mkCachePage (py_slice l ((1 - 1) * ps) ((1 - 1) * ps + ps))
            (Z.of_nat (length (py_slice l ((1 - 1) * ps) ((1 - 1) * ps + ps))))
            (sr_total_count (data e)) 1 ps
            (Z.max 1 ((Z.of_nat (length l) + ps - 1) / ps))).
  split; [|split].
  - unfold _handle_cache_api. rewrite (get_search_fresh now sid c e) by done.
    unfold floordiv. by rewrite bool_decide_eq_false_2 by lia.
  - simpl.
    destruct (total_pages_ceil (Z.of_nat (length l)) ps) as (Htp1 & Htp0 & Htp);
      [lia | lia |].
    set (tp := Z.max 1 ((Z.of_nat (length l) + ps - 1) / ps)) in *.
    rewrite <- (fmap_S_seq 0), <- !list_fmap_compose.
    rewrite (list_fmap_ext _ (λ i : nat,
               take (Z.to_nat ps) (drop (i * Z.to_nat ps) l))).
    2:{ intros _ i _. simpl. by apply page_items_window. }
    rewrite windows_concat. apply take_ge.
    destruct (decide (length l = 0%nat)) as [->|Hpos]; [lia|].
    assert (Z.of_nat (length l) <= tp * ps) by lia. nia.
  - intros p. unfold page_items, _handle_cache_api.
    rewrite (get_search_fresh now sid c e) by done.
    unfold floordiv. rewrite bool_decide_eq_false_2 by lia. simpl.
    unfold py_slice, slice_bound. rewrite length_take.
    repeat case_bool_decide; lia.
Qed.

(** X7. The route does not guard against [pageSize=0]: for a cached,
    unexpired search the handler is left by the division error of
    [totalPages] (the store is untouched), whereas for an unknown
    identifier the lookup comes first and the answer is the 404. *)
Theorem cache_api_zero_page_size (now : Z) (sid : string) (page : Z)
    (c : @CacheManager Icon) :
  (∀ e, _search_cache c !! sid = Some e →
        now - timestamp e <= expiry_seconds c →
        _handle_cache_api now sid page 0 c = (CacheApiZeroDivision, c))
  ∧ (_search_cache c !! sid = None →
     _handle_cache_api now sid page 0 c = (CacheApiNotFound, c)).
Proof.
  split.
  - intros e Hk Hage. unfold _handle_cache_api.
    by rewrite (get_search_fresh now sid c e).
  - intros Hk. unfold _handle_cache_api. by rewrite get_search_absent.
Qed.

Lemma get_search_stale now k (c : @CacheManager Icon) e :
  _search_cache c !! k = Some e → now - timestamp e > expiry_seconds c →
  get_search now k c = (None, with_search_cache (delete k (_search_cache c)) c).
Proof.
  intros Hk Hage. unfold get_search.
  by rewrite (get_entry_stale _ _ _ _ e).
Qed.

(** X8. A search record older than the TTL is unknown to both of its
    readers, and the read itself removes it: the pagination route
    answers 404 and the poll is refused with not-found, each leaving a
    store from which the record is gone (everything else unchanged), so
    that the identifier stays unknown whatever the clock shows later. *)
Theorem expired_search_record_is_dropped (now : Z) (sid : string)
    (page ps max_wait_ms : Z) (c : @CacheManager Icon)
    (e : CacheEntry (@SearchRecord Icon)) :
  _search_cache c !! sid = Some e → now - timestamp e > expiry_seconds c →
  let c' := with_search_cache (delete sid (_search_cache c)) c in
  _handle_cache_api now sid page ps c = (CacheApiNotFound, c')
  ∧ _check_selection now sid max_wait_ms c
    = (PollRaised (MsgNoSearchFound sid), c')
  ∧ (∀ now', _handle_cache_api now' sid page ps c' = (CacheApiNotFound, c')
             ∧ _check_selection now' sid max_wait_ms c'
               = (PollRaised (MsgNoSearchFound sid), c')).
Proof.
  intros Hk Hage c'.
  unfold _handle_cache_api, _check_selection.
  rewrite (get_search_stale now sid c e) by done. fold c'.
  split; [done|]. split; [done|]. intros now'.
  rewrite get_search_absent; [done|]. simpl. apply lookup_delete_eq.
Qed.

(** X9. The submission route checks only that the item list and the
    identifier are non-empty: if either is empty it answers 400 and
    writes nothing; otherwise it stores a COMPLETED record carrying
    exactly the submitted items, whatever record (none, WAITING, FAILED,
    COMPLETED) was there and whether or not a search was ever made under
    that identifier, and reports their number. *)
Theorem save_api_overwrites (now : Z) (items : list Icon) (sid : string)
    (c : @CacheManager Icon) :
  (items = [] ∨ sid = "" →
   _handle_save_api now (SaveBody items sid) c = (SaveMissing, c))
  ∧ (items ≠ [] → sid ≠ "" →
     _handle_save_api now (SaveBody items sid) c
     = (SaveSuccess (Z.of_nat (length items)),
        set_selection sid (mkSelectionData COMPLETED sid now true items) c)
     ∧ get_selection sid (_handle_save_api now (SaveBody items sid) c).2
       = Some (mkSelectionData COMPLETED sid now true items)
     ∧ _search_cache (_handle_save_api now (SaveBody items sid) c).2
       = _search_cache c).
Proof.
  unfold _handle_save_api. split.
  - intros [-> | ->]; [done|]. rewrite bool_decide_eq_true_2 by done.
    by rewrite orb_true_r.
  - intros Hitems Hsid. destruct items; [done|]. simpl.
    rewrite bool_decide_eq_false_2 by done. simpl.
    split; [done|]. split; [|done].
    unfold get_selection; simpl. apply lookup_insert_eq.
Qed.

(** ** More on disconnects and polls *)

Lemma step_closed w ev w' (conn : nat) (sid : string) :
  step t w ev = Some w' →
  ws_handlers w !! conn = Some (mkWsHandler sid WsClosed) →
  ws_handlers w' !! conn = Some (mkWsHandler sid WsClosed).
Proof.
  unfold step. intros Hstep Hc.
  destruct ev; repeat case_match; simplify_eq; simpl; try done;
    match goal with
    | |- context [<[?c := _]> _ !! conn] =>
        destruct (decide (c = conn)) as [->|?];
        [ rewrite !lookup_insert_eq; simplify_eq; auto
        | rewrite !lookup_insert_ne by done; done ]
    end.
Qed.

Lemma run_closed w evs w' (conn : nat) (sid : string) :
  run t w evs = Some w' →
  ws_handlers w !! conn = Some (mkWsHandler sid WsClosed) →
  ws_handlers w' !! conn = Some (mkWsHandler sid WsClosed).
Proof.
  revert w. induction evs as [|ev evs IH]; intros w; simpl.
  - by intros [= <-].
  - destruct (step t w ev) as [w1|] eqn:Hstep; [|done].
    intros Hrun Hc. apply (IH w1 Hrun). by eapply step_closed.
Qed.

(** X10. When a connection closes and the record of its identifier is
    not WAITING -- a selection was submitted, the record is FAILED or
    has been consumed -- or the identifier is empty, the handler
    finishes in that same step: it leaves the client set, starts no
    grace period and writes nothing, and in no later schedule does it
    run a re-check. *)
Theorem ws_close_without_grace (w : @World Icon) (conn : nat) (sid : string) :
  ws_handlers w !! conn = Some (mkWsHandler sid WsListening) →
  is_waiting (get_selection sid (cache w)) = false ∨ sid = "" →
  ∃ w1,
    step t w (WsClose conn) = Some w1
    ∧ cache w1 = cache w
    ∧ (conn ∉ _ws_clients w1)
    ∧ ∀ evs w2,
        run t w1 evs = Some w2 →
        ws_handlers w2 !! conn = Some (mkWsHandler sid WsClosed)
        ∧ step t w2 (WsGraceOver conn) = None.
Proof.
  intros Hh Hnot.
  assert (Hdisc : ws_disconnect sid (cache w) = false).
  { unfold ws_disconnect. case_bool_decide; [done|]. by destruct Hnot. }
  unfold step at 1. rewrite Hh, Hdisc.
  eexists. split; [reflexivity|]. simpl.
  split; [done|].
  split; [apply not_elem_of_difference; right; by apply elem_of_singleton|].
  intros evs w2 Hrun.
  apply run_closed with (conn := conn) (sid := sid) in Hrun;
    [|simpl; apply lookup_insert_eq].
  split; [done|]. unfold step. by rewrite Hrun.
Qed.

(** X11. Abandonment, end to end: a connection closes while its record
    is WAITING, nothing touches the record, the grace period passes and
    the re-check runs; a poll for that identifier that wakes next,
    before its deadline, returns the failed result and deletes the
    record. *)
Theorem abandoned_selection_fails (w : @World Icon) (conn p : nat)
    (sid : string) (sel : @SelectionData Icon)
    (max_wait_ms start last_log wake d : Z) :
  ws_handlers w !! conn = Some (mkWsHandler sid WsListening) →
  sid ≠ "" →
  get_selection sid (cache w) = Some sel → status sel = WAITING →
  polls w !! p = Some (PollSleeping sid max_wait_ms start last_log wake) →
  grace_period <= d → wake <= clock w + d →
  clock w + d - start < max_wait_ms →
  ∃ w',
    run t w [WsClose conn; Tick d; WsGraceOver conn; PollWake p] = Some w'
    ∧ polls w' !! p
      = Some (PollReturned
                (mkPollResult false "failed" None None
                   (Some MsgSelectionFailed)))
    ∧ get_selection sid (cache w') = None.
Proof.
  intros Hh Hsid Hsel Hst Hp Hd Hwake Hin.
  assert (Hdisc : ws_disconnect sid (cache w) = true).
  { unfold ws_disconnect. rewrite bool_decide_eq_false_2 by done.
    rewrite Hsel. simpl. by rewrite bool_decide_eq_true_2. }
  assert (Hw : is_waiting (get_selection sid (cache w)) = true).
  { rewrite Hsel. simpl. by rewrite bool_decide_eq_true_2. }
  unfold grace_period in *.
  unfold run, step; simpl. rewrite Hh, Hdisc. simpl.
  rewrite bool_decide_eq_true_2 by lia. simpl.
  rewrite lookup_insert_eq.
  rewrite bool_decide_eq_true_2 by (unfold grace_period; lia). simpl.
  rewrite Hp. rewrite bool_decide_eq_true_2 by lia.
  rewrite (ws_after_grace_waiting _ _ _ Hw).
  rewrite (poll_loop_failed _ _ _ _ _ _
             (mkSelectionData FAILED sid (clock w + d) false []));
    [| lia | unfold get_selection; simpl; apply lookup_insert_eq | done].
  eexists. split; [reflexivity|]. simpl.
  split; [apply lookup_insert_eq|].
  unfold get_selection; simpl. apply lookup_delete_eq.
Qed.

(** X12. The deadline is tested before the record is read: a poll that
    wakes once its budget is used up returns the timeout result and
    leaves the store as it is even if a COMPLETED or FAILED record is
    waiting for it, and a call with a budget of zero or less does the
    same within the call; the unread record stays for a later call. *)
Theorem poll_deadline_first (w : @World Icon) (p : nat) (sid : string)
    (max_wait_ms : Z) :
  (∀ start last_log wake,
     polls w !! p = Some (PollSleeping sid max_wait_ms start last_log wake) →
     wake <= clock w → max_wait_ms <= clock w - start →
     ∃ w' r,
       step t w (PollWake p) = Some w'
       ∧ polls w' !! p = Some (PollReturned r) ∧ is_timeout r
       ∧ cache w' = cache w)
  ∧ (∀ e,
       polls w !! p = None →
       _search_cache (cache w) !! sid = Some e →
       clock w - timestamp e <= expiry_seconds (cache w) →
       max_wait_ms <= 0 →
       ∃ w' r,
         step t w (PollCall p sid max_wait_ms) = Some w'
         ∧ polls w' !! p = Some (PollReturned r) ∧ is_timeout r
         ∧ cache w' = cache w).
Proof.
  split.
  - intros start last_log wake Hp Hwake Hlate.
    unfold step. rewrite Hp. rewrite bool_decide_eq_true_2 by done.
    destruct (poll_loop_deadline (clock w) sid max_wait_ms start last_log
                (cache w)) as (r & Hl & Hr); [done|].
    rewrite Hl. eexists _, r. split; [reflexivity|]. simpl.
    split; [apply lookup_insert_eq|]. done.
  - intros e Hp Hk Hage Hle.
    unfold step. rewrite Hp. unfold _check_selection.
    rewrite (get_search_fresh (clock w) sid (cache w) e) by done.
    destruct (poll_loop_deadline (clock w) sid max_wait_ms (clock w) (clock w)
                (cache w)) as (r & Hl & Hr); [lia|].
    rewrite Hl. eexists _, r. split; [reflexivity|]. simpl.
    split; [apply lookup_insert_eq|]. done.
Qed.

(** ** The life of a selection record *)

Lemma poll_loop_selection now sid max_wait_ms start last_log
    (c : @CacheManager Icon) :
  let c' := (poll_loop now sid max_wait_ms start last_log c).2 in
  c' = c
  ∨ (∃ rec, get_selection sid c = Some rec ∧ terminal rec
            ∧ c' = delete_selection sid c).
Proof.
  unfold poll_loop. case_bool_decide; [|by left].
  destruct (get_selection sid c) as [rec|] eqn:Hrec; [|by left].
  case_bool_decide as Hc.
  { right. exists rec. split; [done|]. split; [by left | done]. }
  case_bool_decide as Hf; [|by left].
  right. exists rec. split; [done|]. split; [by right | done].
Qed.

(** What one event can do to the record filed under [sid]. *)
Lemma step_selection_cases w ev w' (sid : string) :
  step t w ev = Some w' →
  get_selection sid (cache w') = get_selection sid (cache w)
  ∨ (∃ conn, ev = WsOpen conn sid ∧ sid ≠ ""
       ∧ get_selection sid (cache w')
         = Some (mkSelectionData WAITING sid (clock w) true []))
  ∨ (∃ items, ev = HttpSave (SaveBody items sid) ∧ items ≠ [] ∧ sid ≠ ""
       ∧ get_selection sid (cache w')
         = Some (mkSelectionData COMPLETED sid (clock w) true items))
  ∨ (∃ conn, ev = WsGraceOver conn
       ∧ is_waiting (get_selection sid (cache w)) = true
       ∧ get_selection sid (cache w')
         = Some (mkSelectionData FAILED sid (clock w) false []))
  ∨ (∃ p rec, (ev = PollWake p ∨ ∃ max_wait_ms, ev = PollCall p sid max_wait_ms)
       ∧ get_selection sid (cache w) = Some rec ∧ terminal rec
       ∧ get_selection sid (cache w') = None).
Proof.
  unfold step. intros Hstep. destruct ev.
  - (* Tick *) case_bool_decide; simplify_eq. by left.
  - (* WsOpen *) case_match; simplify_eq. simpl. unfold ws_connect.
    case_bool_decide as Hs; [by left|].
    destruct (decide (sid0 = sid)) as [->|Hne].
    + right; left. exists conn. split; [done|]. split; [done|].
      unfold get_selection; simpl. apply lookup_insert_eq.
    + left. unfold get_selection; simpl. by rewrite lookup_insert_ne.
  - repeat case_match; simplify_eq; by left.
  - repeat case_match; simplify_eq; by left.
  - repeat case_match; simplify_eq; by left.
  - repeat case_match; simplify_eq; by left.
  - (* WsGraceOver *) repeat case_match; simplify_eq. simpl.
    unfold ws_after_grace.
    destruct (is_waiting (get_selection _ (cache w))) eqn:Hw; [|by left].
    match goal with
    | |- context [set_selection ?s0 _ _] =>
        destruct (decide (s0 = sid)) as [->|Hne]
    end.
    + right; right; right; left. exists conn. split; [done|]. split; [done|].
      unfold get_selection; simpl. apply lookup_insert_eq.
    + left. unfold get_selection; simpl. by rewrite lookup_insert_ne.
  - (* HttpSave *) simplify_eq. simpl. destruct req as [|items sid0]; [by left|].
    unfold _handle_save_api.
    destruct (is_empty_list items || bool_decide (sid0 = "")) eqn:Hchk;
      [by left|].
    apply orb_false_elim in Hchk as [Hitems Hsid].
    apply bool_decide_eq_false in Hsid. simpl.
    destruct (decide (sid0 = sid)) as [->|Hne].
    + right; right; left. exists items. split; [done|].
      split; [by destruct items|]. split; [done|].
      unfold get_selection; simpl. apply lookup_insert_eq.
    + left. unfold get_selection; simpl. by rewrite lookup_insert_ne.
  - (* HttpCache *) simplify_eq. simpl. left.
    unfold _handle_cache_api.
    pose proof (get_search_selection (clock w) sid0 (cache w)) as Hsel.
    destruct (get_search _ _ _) as [[rec|] c']; simpl in *;
      [|by unfold get_selection; rewrite Hsel].
    destruct (floordiv _ _); simpl; by unfold get_selection; rewrite Hsel.
  - (* PollCall *) case_match; simplify_eq. simpl.
    unfold _check_selection.
    pose proof (get_search_selection (clock w) sid0 (cache w)) as Hsel.
    destruct (get_search _ _ _) as [[rec|] c']; simpl in *;
      [|by left; unfold get_selection; rewrite Hsel].
    destruct (poll_loop_selection (clock w) sid0 max_wait_ms (clock w) (clock w)
                c') as [-> | (rec0 & Hrec & Hterm & ->)].
    { left. by unfold get_selection; rewrite Hsel. }
    destruct (decide (sid0 = sid)) as [->|Hne].
    + right; right; right; right. exists p, rec0.
      split; [right; eauto|].
      split; [by unfold get_selection in *; rewrite <- Hsel|].
      split; [done|]. apply get_selection_deleted.
    + left. unfold get_selection; simpl. rewrite lookup_delete_ne by done.
      by rewrite Hsel.
  - (* PollWake *) repeat case_match; simplify_eq. simpl.
    match goal with
    | |- context [poll_loop ?n ?s0 ?m ?st ?ll ?c] =>
        destruct (poll_loop_selection n s0 m st ll c)
          as [-> | (rec0 & Hrec & Hterm & ->)]; [by left|];
        destruct (decide (s0 = sid)) as [->|Hne]
    end.
    + right; right; right; right. exists p, rec0.
      split; [by left|]. split; [done|]. split; [done|].
      apply get_selection_deleted.
    + left. unfold get_selection; simpl. by rewrite lookup_delete_ne.
  - (* SearchCall *) case_match; [done|].
    unfold search_icons in Hstep.
    repeat case_bool_decide; simpl in Hstep; simplify_eq; try by left.
    unfold get_icon in Hstep.
    destruct (get_entry _ _ _ _) as [[r|] m]; simplify_eq; by left.
  - (* SearchAnswer *) repeat case_match; simplify_eq.
    unfold search_icons_resume in *.
    repeat case_match; simplify_eq; by left.
  - repeat case_match; simplify_eq; by left.
  - (* ToolClear *) simplify_eq. simpl. left. unfold clear.
    destruct expired_only; [|done].
    by destruct (clear_expired _ _ (_icon_cache _)),
                (clear_expired _ _ (_search_cache _)).
Qed.

Lemma record_wf_later now now' sid (rec : @SelectionData Icon) :
  now <= now' → record_wf now sid rec → record_wf now' sid rec.
Proof. unfold record_wf. intros Hle (? & ? & ? & ?). repeat split; [done.. | lia | done]. Qed.

Lemma is_waiting_Some (o : option (@SelectionData Icon)) :
  is_waiting o = true → ∃ rec, o = Some rec ∧ status rec = WAITING.
Proof.
  destruct o as [rec|]; simpl; [|done].
  intros H%bool_decide_eq_true. eauto.
Qed.

Lemma step_selections_wf w ev w' :
  selections_wf w → step t w ev = Some w' → selections_wf w'.
Proof.
  intros Hwf Hstep sid rec Hrec.
  pose proof (step_clock_mono _ _ _ Hstep) as Hclock.
  destruct (step_selection_cases _ _ _ sid Hstep)
    as [Hsame | [(conn & _ & Hsid & Hnew) | [(items & _ & Hitems & Hsid & Hnew)
       | [(conn & _ & Hw & Hnew) | (p & old & _ & _ & _ & Hnew)]]]].
  - rewrite Hsame in Hrec. eapply record_wf_later; [done|]. by apply Hwf.
  - rewrite Hnew in Hrec. simplify_eq. by repeat split.
  - rewrite Hnew in Hrec. simplify_eq. by repeat split.
  - rewrite Hnew in Hrec. simplify_eq.
    apply is_waiting_Some in Hw as (old & Hold & _).
    destruct (Hwf _ _ Hold) as (_ & Hsid & _). by repeat split.
  - rewrite Hnew in Hrec. done.
Qed.

Lemma run_selections_wf w evs w' :
  selections_wf w → run t w evs = Some w' → selections_wf w'.
Proof.
  revert w. induction evs as [|ev evs IH]; intros w Hwf; simpl.
  - by intros [= <-].
  - destruct (step t w ev) as [w1|] eqn:Hstep; [|done].
    apply IH. by eapply step_selections_wf.
Qed.

(** X13. Whatever has happened since start-up, every stored selection
    record is filed under its own, non-empty identifier and is stamped
    no later than the clock; a WAITING record is connected and carries
    no items, a COMPLETED record is connected and carries at least one
    item, a FAILED record is disconnected and carries none; TIMEOUT is
    never stored. *)
Theorem selection_records_well_formed (expiry : Z) (evs : list (@Event Icon))
    (w : @World Icon) :
  run t (init_world expiry) evs = Some w → selections_wf w.
Proof.
  apply run_selections_wf. intros sid rec Hrec.
  unfold get_selection in Hrec. simpl in Hrec. by rewrite lookup_empty in Hrec.
Qed.

(** X14. Who writes what: when an event gives the record under [sid] a
    new value, a WAITING value comes from the opening of a connection
    for [sid], a COMPLETED value from a submission naming [sid], and a
    FAILED value from a grace-period re-check that found the record
    WAITING; nothing else writes a record. *)
Theorem selection_writers (w w' : @World Icon) (ev : @Event Icon)
    (sid : string) (rec' : @SelectionData Icon) :
  step t w ev = Some w' →
  get_selection sid (cache w') = Some rec' →
  get_selection sid (cache w) ≠ Some rec' →
  match status rec' with
  | WAITING => ∃ conn, ev = WsOpen conn sid
  | COMPLETED => ∃ items, ev = HttpSave (SaveBody items sid)
  | FAILED =>
      (∃ conn, ev = WsGraceOver conn)
      ∧ ∃ old, get_selection sid (cache w) = Some old ∧ status old = WAITING
  | TIMEOUT => False
  end.
Proof.
  intros Hstep Hrec Hchanged.
  destruct (step_selection_cases _ _ _ sid Hstep)
    as [Hsame | [(conn & Hev & _ & Hnew) | [(items & Hev & _ & _ & Hnew)
       | [(conn & Hev & Hw & Hnew) | (p & old & _ & _ & _ & Hnew)]]]].
  - rewrite Hsame in Hrec. done.
  - rewrite Hnew in Hrec. simplify_eq. simpl. eauto.
  - rewrite Hnew in Hrec. simplify_eq. simpl. eauto.
  - rewrite Hnew in Hrec. simplify_eq. simpl.
    split; [eauto|]. by apply is_waiting_Some.
  - rewrite Hnew in Hrec. done.
Qed.

(** X15. Records leave the selection namespace in one way only: a record
    that is there before an event and gone after it was COMPLETED or
    FAILED and the event is a turn of a poll for that identifier.  A
    WAITING record is never removed. *)
Theorem selection_removed_only_by_poll (w w' : @World Icon)
    (ev : @Event Icon) (sid : string) (rec : @SelectionData Icon) :
  step t w ev = Some w' →
  get_selection sid (cache w) = Some rec →
  get_selection sid (cache w') = None →
  terminal rec
  ∧ ∃ p, ev = PollWake p ∨ ∃ max_wait_ms, ev = PollCall p sid max_wait_ms.
Proof.
  intros Hstep Hrec Hgone.
  destruct (step_selection_cases _ _ _ sid Hstep)
    as [Hsame | [(conn & _ & _ & Hnew) | [(items & _ & _ & _ & Hnew)
       | [(conn & _ & _ & Hnew) | (p & old & Hev & Hold & Hterm & _)]]]];
    try congruence.
  rewrite Hold in Hrec. simplify_eq. eauto.
Qed.

(** ** The timestamped namespaces over time *)

Lemma get_entry_subseteq {A} expiry now k (m : gmap string (CacheEntry A)) :
  (get_entry expiry now k m).2 ⊆ m.
Proof.
  unfold get_entry. destruct (m !! k) as [e|]; [|done].
  destruct (expired expiry now e); [apply delete_subseteq | done].
Qed.

Lemma get_search_shrinks now k (c : @CacheManager Icon) :
  let c' := (get_search now k c).2 in
  _icon_cache c' = _icon_cache c ∧ _search_cache c' ⊆ _search_cache c
  ∧ expiry_seconds c' = expiry_seconds c.
Proof.
  unfold get_search.
  pose proof (get_entry_subseteq (expiry_seconds c) now k (_search_cache c)).
  by destruct (get_entry _ _ _ _).
Qed.

Lemma get_icon_shrinks now k (c : @CacheManager Icon) :
  let c' := (get_icon now k c).2 in
  _icon_cache c' ⊆ _icon_cache c ∧ _search_cache c' = _search_cache c
  ∧ expiry_seconds c' = expiry_seconds c.
Proof.
  unfold get_icon.
  pose proof (get_entry_subseteq (expiry_seconds c) now k (_icon_cache c)).
  by destruct (get_entry _ _ _ _).
Qed.

Lemma poll_loop_timestamped now sid max_wait_ms start last_log
    (c : @CacheManager Icon) :
  let c' := (poll_loop now sid max_wait_ms start last_log c).2 in
  _icon_cache c' = _icon_cache c ∧ _search_cache c' = _search_cache c
  ∧ expiry_seconds c' = expiry_seconds c.
Proof.
  destruct (poll_loop_selection now sid max_wait_ms start last_log c)
    as [-> | (? & _ & _ & ->)]; done.
Qed.

Lemma clear_shrinks now b (c : @CacheManager Icon) :
  let c' := (clear now b c).2 in
  _icon_cache c' ⊆ _icon_cache c ∧ _search_cache c' ⊆ _search_cache c
  ∧ expiry_seconds c' = expiry_seconds c.
Proof.
  destruct b.
  - rewrite clear_expired_only. simpl.
    split; [apply map_filter_subseteq|]. split; [apply map_filter_subseteq|done].
  - simpl. split; [apply map_empty_subseteq|].
    split; [apply map_empty_subseteq|done].
Qed.

(** X16. Only the arrival of an upstream search answer adds to or
    rewrites the cached results and the search records: under every
    other event each entry of the two timestamped namespaces is either
    still there, unchanged, or has been evicted.  The configured expiry
    never changes. *)
Theorem timestamped_namespaces_only_shrink (w w' : @World Icon)
    (ev : @Event Icon) :
  step t w ev = Some w' →
  expiry_seconds (cache w') = expiry_seconds (cache w)
  ∧ ((∀ s resp rand_str, ev ≠ SearchAnswer s resp rand_str) →
     _icon_cache (cache w') ⊆ _icon_cache (cache w)
     ∧ _search_cache (cache w') ⊆ _search_cache (cache w)).
Proof.
  unfold step. intros Hstep. destruct ev;
    try (repeat case_match; simplify_eq; simpl; done).
  - (* WsOpen *) case_match; simplify_eq. simpl. unfold ws_connect.
    by case_bool_decide.
  - (* WsGraceOver *) repeat case_match; simplify_eq. simpl.
    unfold ws_after_grace. by case_match.
  - (* HttpSave *) simplify_eq. simpl. unfold _handle_save_api.
    repeat case_match; done.
  - (* HttpCache *) simplify_eq. simpl. unfold _handle_cache_api.
    pose proof (get_search_shrinks (clock w) sid (cache w)) as (Hi & Hs & He).
    destruct (get_search _ _ _) as [[rec|] c']; simpl in *;
      [destruct (floordiv _ _); simpl|]; rewrite ?Hi; done.
  - (* PollCall *) case_match; simplify_eq. simpl. unfold _check_selection.
    pose proof (get_search_shrinks (clock w) sid (cache w)) as (Hi & Hs & He).
    destruct (get_search _ _ _) as [[rec|] c']; simpl in *;
      [|rewrite ?Hi; done].
    pose proof (poll_loop_timestamped (clock w) sid max_wait_ms (clock w)
                  (clock w) c') as (Hi' & Hs' & He').
    simpl in *. rewrite Hi', Hs', He', Hi. done.
  - (* PollWake *) repeat case_match; simplify_eq. simpl.
    match goal with
    | |- context [poll_loop ?n ?s0 ?m ?st ?ll ?c] =>
        pose proof (poll_loop_timestamped n s0 m st ll c) as (Hi & Hs & He)
    end.
    simpl in *. by rewrite Hi, Hs, He.
  - (* SearchCall *) case_match; [done|].
    unfold search_icons in Hstep.
    repeat case_bool_decide; simpl in Hstep; simplify_eq; try done.
    pose proof (get_icon_shrinks (clock w) (cache_key a) (cache w))
      as (Hi & Hs & He).
    destruct (get_icon _ _ _) as [[r|] c']; simplify_eq; simpl in *;
      rewrite ?Hs; done.
  - (* SearchAnswer *) split; [|intros Hne; by edestruct Hne].
    repeat case_match; simplify_eq.
    unfold search_icons_resume in *. repeat case_match; simplify_eq; done.
  - (* ToolClear *) simplify_eq. simpl.
    pose proof (clear_shrinks (clock w) expired_only (cache w)) as (?&?&?).
    done.
Qed.

Lemma get_entry_kept {A} expiry now k0 k (m : gmap string (CacheEntry A)) rec :
  m !! k = Some rec →
  (get_entry expiry now k0 m).2 !! k = Some rec ∨ now - timestamp rec > expiry.
Proof.
  intros Hk. unfold get_entry.
  destruct (m !! k0) as [e|] eqn:Hk0; [|by left].
  destruct (expired expiry now e) eqn:He; [|by left].
  apply expired_true in He. simpl.
  destruct (decide (k0 = k)) as [->|Hne].
  - right. by simplify_eq.
  - left. by rewrite lookup_delete_ne.
Qed.

Ltac summary_unchanged :=
  split; [done|]; split; [done|]; split; eauto.

(** What an event other than a search answer does to the cached
    results, the objects and the search records. *)
Lemma step_summary w ev w' :
  step t w ev = Some w' →
  (∀ s resp rand_str, ev ≠ SearchAnswer s resp rand_str) →
  _icon_cache (cache w') ⊆ _icon_cache (cache w)
  ∧ expiry_seconds (cache w') = expiry_seconds (cache w)
  ∧ (∀ (addr : ref) obj, heap w !! addr = Some obj →
       ∃ obj', heap w' !! addr = Some obj' ∧ search_id obj' = search_id obj)
  ∧ (∀ k rec, _search_cache (cache w) !! k = Some rec →
       _search_cache (cache w') !! k = Some rec
       ∨ clock w - timestamp rec > expiry_seconds (cache w)
       ∨ _icon_cache (cache w') = ∅).
Proof.
  unfold step. intros Hstep Hne.
  assert (Hsearch : ∀ sid0 c',
    c' = (get_search (clock w) sid0 (cache w)).2 →
    _icon_cache c' = _icon_cache (cache w)
    ∧ expiry_seconds c' = expiry_seconds (cache w)
    ∧ ∀ k rec, _search_cache (cache w) !! k = Some rec →
        _search_cache c' !! k = Some rec
        ∨ clock w - timestamp rec > expiry_seconds (cache w)).
  { intros sid0 c' ->. unfold get_search.
    destruct (get_entry _ _ _ _) as [o m] eqn:Hge. simpl.
    split; [done|]. split; [done|]. intros k rec Hk.
    pose proof (get_entry_kept (expiry_seconds (cache w)) (clock w) sid0 k
                  (_search_cache (cache w)) rec Hk) as Hkept.
    by rewrite Hge in Hkept. }
  destruct ev;
    try (repeat case_match; simplify_eq; simpl; by summary_unchanged).
  - (* WsOpen *) case_match; simplify_eq. simpl. unfold ws_connect.
    case_bool_decide; simpl; summary_unchanged.
  - (* WsGraceOver *) repeat case_match; simplify_eq. simpl.
    unfold ws_after_grace.
    case_match; simpl; summary_unchanged.
  - (* HttpSave *) simplify_eq. simpl. unfold _handle_save_api.
    repeat case_match; simpl; summary_unchanged.
  - (* HttpCache *) simplify_eq. simpl. unfold _handle_cache_api.
    destruct (Hsearch sid _ eq_refl) as (Hi & He & Hs).
    destruct (get_search _ _ _) as [[rec|] c']; simpl in *;
      [destruct (floordiv _ _); simpl|]; rewrite ?Hi;
      (split; [done|]; split; [done|]; split; [eauto|]);
      intros k rec0 Hk; destruct (Hs k rec0 Hk); auto.
  - (* PollCall *) case_match; simplify_eq. simpl. unfold _check_selection.
    destruct (Hsearch sid _ eq_refl) as (Hi & He & Hs).
    destruct (get_search _ _ _) as [[rec|] c']; simpl in *;
      [|rewrite ?Hi; (split; [done|]; split; [done|]; split; [eauto|]);
        intros k rec0 Hk; destruct (Hs k rec0 Hk); auto].
    pose proof (poll_loop_timestamped (clock w) sid max_wait_ms (clock w)
                  (clock w) c') as (Hi' & Hs' & He').
    simpl in *. rewrite Hi', Hs', He', Hi.
    split; [done|]. split; [done|]. split; eauto.
    intros k rec0 Hk. destruct (Hs k rec0 Hk); auto.
  - (* PollWake *) repeat case_match; simplify_eq. simpl.
    match goal with
    | |- context [poll_loop ?n ?s0 ?m ?st ?ll ?c] =>
        pose proof (poll_loop_timestamped n s0 m st ll c) as (Hi & Hs & He)
    end.
    simpl in *. rewrite Hi, Hs, He.
    split; [done|]. split; [done|]. split; eauto.
  - (* SearchCall *) case_match; [done|].
    unfold search_icons in Hstep.
    repeat case_bool_decide; simpl in Hstep; simplify_eq; simpl;
      try by summary_unchanged.
    pose proof (get_icon_shrinks (clock w) (cache_key a) (cache w))
      as (Hi & Hs & He).
    destruct (get_icon _ _ _) as [[r|] c']; simplify_eq; simpl in *;
      rewrite ?Hs; summary_unchanged.
  - (* SearchAnswer *) by edestruct Hne.
  - (* SearchDeliver *) repeat case_match; simplify_eq. simpl.
    split; [done|]. split; [done|]. split; [|eauto].
    intros r0 obj Hobj. rewrite lookup_alter.
    case_decide; simplify_eq; rewrite ?Hobj; simpl; eauto.
  - (* ToolClear *) simplify_eq. simpl. destruct expired_only.
    + rewrite clear_expired_only. simpl.
      split; [apply map_filter_subseteq|]. split; [done|]. split; [eauto|].
      intros k rec Hk.
      destruct (decide (older_than (expiry_seconds (cache w)) (clock w)
                          (k, rec))) as [Hold|Hnew]; [by right; left|].
      left. by apply map_lookup_filter_Some.
    + simpl. split; [apply map_empty_subseteq|]. split; [done|].
      split; eauto.
Qed.

Lemma step_hit_is_known_other w ev w' :
  hit_is_known w → step t w ev = Some w' →
  (∀ s resp rand_str, ev ≠ SearchAnswer s resp rand_str) →
  hit_is_known w'.
Proof.
  intros Hinv Hstep Hne k e Hk.
  destruct (step_summary _ _ _ Hstep Hne) as (Hsub & Hexp & Hheap & Hrec).
  pose proof (step_clock_mono _ _ _ Hstep) as Hclock.
  pose proof (lookup_weaken _ _ _ _ Hk Hsub) as Hk0.
  destruct (Hinv k e Hk0) as (Hts & obj & Hobj & Hfresh).
  destruct (Hheap _ _ Hobj) as (obj' & Hobj' & Hsid).
  split; [lia|]. exists obj'. split; [done|].
  intros Hage. rewrite Hexp in Hage.
  destruct Hfresh as (rec & Hr & Hle); [lia|].
  rewrite Hsid.
  destruct (Hrec _ _ Hr) as [Hkept | [Hold | Hempty]].
  - by exists rec.
  - lia.
  - rewrite Hempty in Hk. by rewrite lookup_empty in Hk.
Qed.

Lemma step_hit_is_known_answer w s resp rand_str w' :
  hit_is_known w → step t w (SearchAnswer s resp rand_str) = Some w' →
  hit_is_known w'.
Proof.
  unfold step. intros Hinv Hstep.
  destruct (searches w !! s) as [[[a| |]|]|]; try done.
  unfold search_icons_resume in Hstep.
  destruct resp as [| |code icons_data total];
    [by simplify_eq | by simplify_eq |].
  case_bool_decide; [by simplify_eq|]. simplify_eq.
  intros k e Hk. simpl in *.
  set (addr := fresh (dom (heap w))) in *.
  assert (Hfresh : heap w !! addr = None)
    by (apply not_elem_of_dom, is_fresh).
  destruct (decide (cache_key a = k)) as [<-|Hne].
  - rewrite lookup_insert_eq in Hk. simplify_eq. simpl.
    split; [lia|]. eexists. split; [apply lookup_insert_eq|].
    intros _. simpl. eexists. split; [apply lookup_insert_eq|]. simpl. lia.
  - rewrite lookup_insert_ne in Hk by done.
    destruct (Hinv k e Hk) as (Hts & obj & Hobj & Hserved).
    split; [done|]. exists obj. split.
    { rewrite lookup_insert_ne; [done|]. intros Heq.
      rewrite <- Heq in Hobj. congruence. }
    intros Hage. destruct (Hserved Hage) as (rec & Hr & Hle).
    destruct (decide (_generate_search_id (clock w) rand_str = search_id obj))
      as [Heq|Hother].
    + rewrite <- Heq, lookup_insert_eq. eexists. split; [done|]. simpl. lia.
    + rewrite lookup_insert_ne by done. eauto.
Qed.

Lemma step_hit_is_known w ev w' :
  hit_is_known w → step t w ev = Some w' → hit_is_known w'.
Proof.
  intros Hinv Hstep.
  destruct ev;
    try (by eapply step_hit_is_known_other; [done | done | discriminate]).
  by eapply step_hit_is_known_answer.
Qed.

Lemma run_hit_is_known w evs w' :
  hit_is_known w → run t w evs = Some w' → hit_is_known w'.
Proof.
  revert w. induction evs as [|ev evs IH]; intros w Hinv; simpl.
  - by intros [= <-].
  - destruct (step t w ev) as [w1|] eqn:Hstep; [|done].
    apply IH. by eapply step_hit_is_known.
Qed.

Lemma search_icons_returned now (a : SearchArgs) (c c' : @CacheManager Icon)
    (addr : ref) :
  search_icons now a c = (SearchReturned addr, c') →
  c' = c ∧ ∃ e, _icon_cache c !! cache_key a = Some e ∧ data e = addr
                ∧ now - timestamp e <= expiry_seconds c.
Proof.
  unfold search_icons. intros H.
  case_bool_decide; [done|].
  case_bool_decide; simpl in H; [done|].
  case_bool_decide; simpl in H; [done|].
  unfold get_icon, get_entry in H.
  destruct (_icon_cache c !! cache_key a) as [e|] eqn:Hk; [|done].
  destruct (expired _ _ e) eqn:He; [done|].
  apply expired_false in He. simplify_eq.
  split; [by destruct c|]. eauto.
Qed.

(** X17. A search served from the cache never hands out an identifier
    the rest of the server has forgotten: whatever has happened since
    start-up, when [search_icons] returns a cached object, the
    identifier in that object still has its search record, and the
    record is within its TTL, so that the pagination route and the poll
    both accept it at that moment. *)
Theorem cached_result_is_pollable (expiry : Z) (evs : list (@Event Icon))
    (w : @World Icon) (a : SearchArgs) (addr : ref) (c' : @CacheManager Icon) :
  run t (init_world expiry) evs = Some w →
  search_icons (clock w) a (cache w) = (SearchReturned addr, c') →
  c' = cache w
  ∧ ∃ obj rec,
      heap w !! addr = Some obj
      ∧ get_search (clock w) (search_id obj) (cache w) = (Some rec, cache w).
Proof.
  intros Hrun Hhit.
  apply search_icons_returned in Hhit as (-> & e & Hk & <- & Hage).
  split; [done|].
  assert (Hinv : hit_is_known w).
  { eapply run_hit_is_known; [|done]. intros k0 e0 Hk0.
    simpl in Hk0. by rewrite lookup_empty in Hk0. }
  destruct (Hinv _ _ Hk) as (Hts & obj & Hobj & Hserved).
  destruct (Hserved Hage) as (rec & Hr & Hle).
  exists obj, (data rec). split; [done|].
  apply get_search_fresh; [done | lia].
Qed.

(** ** More on the cached search *)

(** X18. The parameters are checked before anything else: a page below
    1 is refused as an invalid page whatever the page size; with a valid
    page, a page size outside 1..100 is refused as an invalid page
    size; in both cases the store is not even read (no entry is
    evicted).  With a page of at least 1 and a page size in 1..100
    (both bounds included) the first piece never raises. *)
Theorem search_validation (now : Z) (a : SearchArgs) (c : @CacheManager Icon) :
  (arg_page a < 1 → search_icons now a c = (SearchRaised InvalidPage, c))
  ∧ (1 <= arg_page a → arg_page_size a < 1 ∨ 100 < arg_page_size a →
     search_icons now a c = (SearchRaised InvalidPageSize, c))
  ∧ (1 <= arg_page a → 1 <= arg_page_size a <= 100 →
     ∀ err, (search_icons now a c).1 ≠ SearchRaised err).
Proof.
  unfold search_icons. split; [|split].
  - intros Hp. by rewrite bool_decide_eq_true_2.
  - intros Hp Hps. rewrite bool_decide_eq_false_2 by lia.
    destruct Hps.
    + by rewrite (bool_decide_eq_true_2 (arg_page_size a < 1)).
    + rewrite (bool_decide_eq_true_2 (arg_page_size a > 100)) by lia.
      by rewrite orb_true_r.
  - intros Hp Hps err. rewrite !bool_decide_eq_false_2 by lia. simpl.
    destruct (get_icon _ _ _) as [[addr|] c']; done.
Qed.

(** X19. Only an upstream answer with code 200 is cached.  On a
    time-out, any other exception of the request, or a JSON answer with
    another code (whatever items it carries), the call raises -- the
    time-out as a time-out, the rest as a failed search -- and neither
    the store nor the object store is changed: no identifier is minted
    and the next identical call goes upstream again. *)
Theorem upstream_failure_caches_nothing (now : Z) (a : SearchArgs)
    (resp : Upstream) (rand_str : string)
    (h : gmap ref (@SearchResult Icon)) (c : @CacheManager Icon) :
  (∀ items total, resp ≠ UpJson 200 items total) →
  ∃ err,
    search_icons_resume t now a resp rand_str h c = (SearchRaised err, h, c)
    ∧ (err = UpstreamTimeout ↔ resp = UpTimeout)
    ∧ (err = SearchFailed ↔ resp ≠ UpTimeout).
Proof.
  intros Hnot. unfold search_icons_resume.
  destruct resp as [| |code items total].
  - exists UpstreamTimeout. by repeat split.
  - exists SearchFailed. by repeat split.
  - rewrite bool_decide_eq_true_2 by (intros ->; by eapply Hnot).
    exists SearchFailed. by repeat split.
Qed.

Lemma string_app_assoc (s1 s2 s3 : string) :
  (s1 +:+ s2) +:+ s3 = s1 +:+ (s2 +:+ s3).
Proof.
  induction s1 as [|ch s1 IH]; [done|].
  change (String ch ((s1 +:+ s2) +:+ s3) = String ch (s1 +:+ (s2 +:+ s3))).
  by rewrite IH.
Qed.

(** X20. The cache key joins the parameters with underscores and so
    does not keep them apart: the query [x_y] sorted by [z] and the
    query [x] sorted by [y_z] have the same key.  While the result
    cached for one of them is within its TTL, a search with the other
    parameters is answered with that object. *)
Theorem cache_key_collision (x y z st fl : string) (pg ps fc : Z) :
  let a1 := mkSearchArgs (x +:+ "_" +:+ y) z pg ps st fc fl in
  let a2 := mkSearchArgs x (y +:+ "_" +:+ z) pg ps st fc fl in
  cache_key a1 = cache_key a2
  ∧ ∀ now (c : @CacheManager Icon) e,
      1 <= pg → 1 <= ps <= 100 →
      _icon_cache c !! cache_key a1 = Some e →
      now - timestamp e <= expiry_seconds c →
      search_icons now a2 c = (SearchReturned (data e), c).
Proof.
  intros a1 a2.
  assert (Hkey : cache_key a1 = cache_key a2).
  { unfold cache_key, a1, a2; simpl. by rewrite !string_app_assoc. }
  split; [done|]. intros now c e Hpg Hps Hk Hage.
  apply search_icons_hit; [done | done | by rewrite <- Hkey | done].
Qed.

Lemma string_app_length (s1 s2 : string) :
  String.length (s1 +:+ s2) = (String.length s1 + String.length s2)%nat.
Proof.
  induction s1 as [|ch s1 IH]; [done|].
  change (S (String.length (s1 +:+ s2))
          = S (String.length s1 + String.length s2)).
  by rewrite IH.
Qed.

Lemma string_app_inj_suffix (s1 s2 u1 u2 : string) :
  String.length u1 = String.length u2 →
  s1 +:+ u1 = s2 +:+ u2 → s1 = s2 ∧ u1 = u2.
Proof.
  intros Hlen. revert s2.
  induction s1 as [|ch s1 IH]; intros [|ch2 s2] Heq.
  - done.
  - apply (f_equal String.length) in Heq.
    rewrite !string_app_length in Heq. simpl in Heq. lia.
  - apply (f_equal String.length) in Heq.
    rewrite !string_app_length in Heq. simpl in Heq. lia.
  - change (String ch (s1 +:+ u1) = String ch2 (s2 +:+ u2)) in Heq.
    injection Heq as -> Heq. destruct (IH _ Heq) as [-> ->]. done.
Qed.

(** X21. Identifiers are kept apart by the millisecond and by the
    draw: two identifiers built from draws of the same length (the code
    always draws 8 characters) are equal only if they were minted at
    the same clock reading with the same draw. *)
Theorem search_id_injective (now now' : Z) (rand_str rand_str' : string) :
  String.length rand_str = String.length rand_str' →
  _generate_search_id now rand_str = _generate_search_id now' rand_str' →
  now = now' ∧ rand_str = rand_str'.
Proof.
  unfold _generate_search_id. intros Hlen Heq.
  apply (inj (String.app "search_")) in Heq.
  apply string_app_inj_suffix in Heq as [Hnow Hrand];
    [|change (S (String.length rand_str) = S (String.length rand_str'));
      by rewrite Hlen].
  split; [by apply (inj pretty)|].
  by apply (inj (String.app "_")) in Hrand.
Qed.

(** X22. The dispatcher writes [web_url] and [waiting_message] into the
    object the icon cache holds, not into a copy: after the first call
    has been answered, a second call with the same parameters within
    the TTL gets, straight from [search_icons], the same object with
    the URL of the first dispatch (its port and the unchanged
    identifier) already in it. *)
Theorem cached_hit_carries_web_url (w : @World Icon) (s1 s2 : nat)
    (a : SearchArgs) (addr : ref) (obj : @SearchResult Icon)
    (e : CacheEntry ref) (port d : Z) :
  searches w !! s1 = Some (SearchRunning (SearchReturned addr)) →
  searches w !! s2 = None →
  heap w !! addr = Some obj →
  _icon_cache (cache w) !! cache_key a = Some e → data e = addr →
  1 <= arg_page a → 1 <= arg_page_size a <= 100 →
  0 <= d → clock w + d - timestamp e <= expiry_seconds (cache w) →
  ∃ w',
    run t w [SearchDeliver s1 port; Tick d; SearchCall s2 a] = Some w'
    ∧ searches w' !! s2 = Some (SearchRunning (SearchReturned addr))
    ∧ heap w' !! addr = Some (decorate t port obj)
    ∧ web_url (decorate t port obj)
      = Some ("http://localhost:" +:+ pretty port +:+ "?searchId="
                +:+ search_id obj)
    ∧ cache w' = cache w.
Proof.
  intros Hs1 Hs2 Hobj Hk Hdata Hpg Hps Hd Hage.
  assert (Hne : s1 ≠ s2) by (intros ->; congruence).
  unfold run, step; simpl. rewrite Hs1. simpl.
  rewrite bool_decide_eq_true_2 by done. simpl.
  rewrite lookup_insert_ne by done. rewrite Hs2.
  rewrite (search_icons_hit (clock w + d) a (cache w) e) by done.
  eexists. split; [reflexivity|]. simpl.
  split; [rewrite lookup_insert_eq; by rewrite Hdata|].
  split; [by rewrite lookup_alter_eq, Hobj|]. done.
Qed.

End Properties.

(** ** Server start-up *)

Lemma probe_Some free n p q :
  probe free n p = Some q →
  p <= q < p + Z.of_nat n ∧ free q = true
  ∧ ∀ r, p <= r < q → free r = false.
Proof.
  revert p. induction n as [|n IH]; intros p; simpl; [done|].
  destruct (free p) eqn:Hp.
  - intros [= <-]. split; [lia|]. split; [done|]. intros r Hr. lia.
  - intros Hq. destruct (IH _ Hq) as (Hrange & Hfree & Hbusy).
    split; [lia|]. split; [done|]. intros r Hr.
    destruct (decide (r = p)) as [->|]; [done|]. apply Hbusy. lia.
Qed.

Lemma probe_None free n p :
  probe free n p = None → ∀ r, p <= r < p + Z.of_nat n → free r = false.
Proof.
  revert p. induction n as [|n IH]; intros p; simpl; [intros _ r; lia|].
  destruct (free p) eqn:Hp; [done|].
  intros Hn r Hr. destruct (decide (r = p)) as [->|]; [done|].
  apply (IH _ Hn). lia.
Qed.

(** X23. [_find_available_port] returns the lowest port among the 100
    ports from [start_port] on whose trial bind succeeds; it falls back
    to the random draw exactly when none of the 100 can be bound. *)
Theorem find_port_first_free (free : Z → bool) (rnd start_port : Z) :
  let q := _find_available_port free rnd start_port in
  ((∃ r, start_port <= r < start_port + 100 ∧ free r = true) →
   start_port <= q < start_port + 100 ∧ free q = true
   ∧ ∀ r, start_port <= r < q → free r = false)
  ∧ ((∀ r, start_port <= r < start_port + 100 → free r = false) → q = rnd).
Proof.
  unfold _find_available_port.
  destruct (probe free 100 start_port) as [q|] eqn:Hprobe; simpl.
  - apply probe_Some in Hprobe as (Hrange & Hfree & Hbusy).
    split; [intros _; split; [lia | done]|].
    intros Hnone. rewrite Hnone in Hfree; [done | lia].
  - split; [|done]. intros (r & Hr & Hfree).
    rewrite (probe_None _ _ _ Hprobe r) in Hfree; [done | lia].
Qed.

(** X24. [start] is idempotent: on a running server it changes nothing
    and reports the port already bound, whatever port or [auto_open] is
    asked for.  On a stopped server it binds the port found from the
    requested port (or, if none is given, from the port it holds), and
    from then on counts as running -- also when the final bind raised,
    since the site attribute is set before the bind. *)
Theorem start_idempotent (free : Z → bool) (rnd : Z) (bind_ok : bool)
    (port_arg : option Z) (auto_open_arg : option bool) (srv : WebServer) :
  (is_running srv = true →
   start free rnd bind_ok port_arg auto_open_arg srv
   = (AlreadyRunning (port srv) (get_url srv), srv))
  ∧ (is_running srv = false →
     let r := start free rnd bind_ok port_arg auto_open_arg srv in
     port r.2
     = _find_available_port free rnd (default (port srv) port_arg)
     ∧ is_running r.2 = true
     ∧ (bind_ok = true →
        r.1 = Started (port r.2) (get_url r.2)
                (default (auto_open srv) auto_open_arg))
     ∧ (bind_ok = false → r.1 = StartRaised)
     ∧ ∀ free' rnd' bind_ok' port_arg' auto_open_arg',
         start free' rnd' bind_ok' port_arg' auto_open_arg' r.2
         = (AlreadyRunning (port r.2) (get_url r.2), r.2)).
Proof.
  unfold start. split; intros Hrun; rewrite Hrun; [done|].
  destruct bind_ok; simpl; repeat split; done.
Qed.

(** ** Saving icons *)

Lemma save_loop_lists io full_path k icons st :
  let st' := save_loop io full_path k st icons in
  saved st'
  = saved st ++ ((λ turn, name_of turn.2 +:+ ".svg")
                   <$> List.filter (savable io)
                         (zip (seq k (length icons)) icons))
  ∧ failed st'
    = failed st ++ ((λ turn, name_of turn.2)
                      <$> List.filter (λ turn, negb (savable io turn))
                            (zip (seq k (length icons)) icons)).
Proof.
  revert k st. induction icons as [|icon icons IH]; intros k st; simpl.
  { by rewrite !app_nil_r. }
  destruct (IH (S k) (save_one full_path (io k) st icon)) as [Hs Hf].
  rewrite Hs, Hf. unfold save_one, savable, svg_of, name_of; simpl.
  fold (svg_of icon). fold (name_of icon).
  case_bool_decide; simpl.
  - by rewrite <- app_assoc.
  - destruct (io k); simpl; by rewrite <- !app_assoc.
Qed.

Lemma filter_split_length {A} (f : A → bool) (l : list A) :
  (length (List.filter f l) + length (List.filter (λ x, negb (f x)) l)
   = length l)%nat.
Proof.
  induction l as [|x l IH]; simpl; [done|].
  destruct (f x); simpl; lia.
Qed.

Lemma turns_length icons : length (turns icons) = length icons.
Proof.
  unfold turns. rewrite length_zip_with, length_seq. lia.
Qed.








(** X26. [save_icons] refuses an empty list before touching anything.
    Otherwise (the directory made) every icon ends in exactly one of
    the two lists, in the order given: [saved] holds the file names of
    the icons that have some SVG text and whose file was opened,
    written and closed without an error, [failed] the names of all
    others -- those without text, those whose file could not be opened
    and those whose write failed; a failure does not stop the batch.
    The text is the value of [svg] when that key is present -- even if
    empty -- and of [show_svg] only when it is not. *)
Theorem save_icons_partition (io : nat → IoOutcome)
    (icons : list IconDict) (full_path : string) (fs : gmap string string) :
  save_icons io true [] full_path fs = (SaveNoIcons, fs)
  ∧ (icons ≠ [] →
     ∃ fs',
       save_icons io true icons full_path fs
       = (SaveDone
            ((λ turn, name_of turn.2 +:+ ".svg")
               <$> List.filter (savable io) (turns icons))
            ((λ turn, name_of turn.2)
               <$> List.filter (λ turn, negb (savable io turn))
                     (turns icons))
            full_path, fs')
       ∧ (length (List.filter (savable io) (turns icons))
          + length (List.filter (λ turn, negb (savable io turn))
                      (turns icons))
          = length icons)%nat)
  ∧ (∀ v w, svg_of (mkIconDict None (Some v) w) = v)
  ∧ (∀ w, svg_of (mkIconDict None None w) = default "" w).
Proof.
  split; [done|]. split; [|done].
  intros Hne.
  assert (Hcall : save_icons io true icons full_path fs
                  = (SaveDone
                       (saved (save_loop io full_path 0
                                 (mkSaveState fs [] []) icons))
                       (failed (save_loop io full_path 0
                                  (mkSaveState fs [] []) icons))
                       full_path,
                     files (save_loop io full_path 0
                              (mkSaveState fs [] []) icons))).
  { unfold save_icons. by destruct icons. }
  rewrite Hcall.
  destruct (save_loop_lists io full_path 0 icons (mkSaveState fs [] []))
    as [Hs Hf].
  cbv zeta in Hs, Hf. rewrite Hs, Hf. eexists. split; [done|].
  rewrite filter_split_length. apply turns_length.
Qed.


(** ** Language selection *)

Lemma set_language_coherent en zh l st :
  lang.coherent en zh st → lang.coherent en zh (lang.set_language l st).
Proof.
  intros Hc. unfold lang.set_language. case_bool_decide; [|done].
  split; [done|]. intros d [=].
Qed.

Lemma init_from_env_coherent en zh a b st :
  lang.coherent en zh st → lang.coherent en zh (lang.init_from_env a b st).
Proof.
  intros Hc. unfold lang.init_from_env.
  repeat case_match; by apply set_language_coherent.
Qed.

Lemma load_coherent en zh st :
  lang.coherent en zh st →
  (lang._load_language_data en zh st).1
  = lang.table_of en zh (lang._current_language st)
  ∧ lang.coherent en zh (lang._load_language_data en zh st).2
  ∧ lang._current_language (lang._load_language_data en zh st).2
    = lang._current_language st.
Proof.
  intros [Hav Hdata]. unfold lang._load_language_data.
  destruct (lang._language_data st) as [d|] eqn:Hd; simpl.
  - split; [by apply Hdata|]. split; [|done]. split; [done|].
    intros d0 Hd0. rewrite Hd in Hd0. by apply Hdata.
  - split; [done|]. split; [|done]. split; [done|].
    simpl. by intros d [= <-].
Qed.

Lemma call_coherent en zh st c :
  lang.coherent en zh st → lang.coherent en zh (lang.call en zh st c).
Proof.
  intros Hc. destruct c as [l|a b|k]; simpl.
  - by apply set_language_coherent.
  - by apply init_from_env_coherent.
  - unfold lang.t.
    destruct (load_coherent en zh st Hc) as (_ & Hc' & _).
    destruct (lang._load_language_data en zh st) as [d st']. simpl in *.
    by repeat case_match.
Qed.

Lemma calls_coherent en zh calls st :
  lang.coherent en zh st →
  lang.coherent en zh (foldl (lang.call en zh) st calls).
Proof.
  revert st. induction calls as [|c calls IH]; intros st Hc; simpl; [done|].
  apply IH. by apply call_coherent.
Qed.

(** X28. Translations never go stale and the language never leaves the
    list: after any sequence of [set_language], [init_from_env] and [t]
    calls the current language is English or Chinese, and [t(key)]
    looks the key up in the table of that language -- not in a table
    cached before a switch -- giving the string the dotted path leads
    to, and the key itself when the path is missing or ends elsewhere
    than in a string. *)
Theorem translations_never_stale (en zh : lang.LangValue)
    (calls : list lang.Call) (k : string) :
  let st := foldl (lang.call en zh) lang.initial calls in
  (lang._current_language st = "en" ∨ lang._current_language st = "zh-CN")
  ∧ (lang.t en zh k st).1
    = match lang.navigate
              (if bool_decide (lang._current_language st = "zh-CN")
               then zh else en)
              (lang.split "." k) with
      | Some (lang.LStr v) => v
      | _ => k
      end.
Proof.
  intros st.
  assert (Hc : lang.coherent en zh st).
  { apply calls_coherent. split; [by left | done]. }
  split.
  - destruct Hc as [Hav _]. unfold lang.AVAILABLE_LANGUAGES in Hav.
    apply elem_of_cons in Hav as [->|Hav]; [by left|].
    apply elem_of_cons in Hav as [->|Hav]; [by right|].
    by apply elem_of_nil in Hav.
  - unfold lang.t.
    destruct (load_coherent en zh st Hc) as (Hd & _ & _).
    destruct (lang._load_language_data en zh st) as [d st']. simpl in *.
    rewrite Hd. unfold lang.table_of. by repeat case_match.
Qed.

(** X29. [init_from_env] forgets the language set before and settles
    on Chinese exactly when the locale -- [LANGUAGE] if set and not
    empty, else [LANG] if set and not empty, else English, cut at the
    first dot -- starts with [zh]; every other locale, known or not,
    gives English.  The table cache is dropped. *)
Theorem init_from_env_outcome (LANGUAGE LANG : option string)
    (st : lang.LangState) :
  lang.init_from_env LANGUAGE LANG st
  = lang.mkLangState
      (if String.prefix "zh" (lang.locale_of LANGUAGE LANG)
       then "zh-CN" else "en") None.
Proof.
  unfold lang.init_from_env. fold (lang.locale_of LANGUAGE LANG).
  set (l := lang.locale_of LANGUAGE LANG).
  case_bool_decide as Hav.
  - unfold lang.set_language. rewrite bool_decide_eq_true_2 by done.
    unfold lang.AVAILABLE_LANGUAGES in Hav.
    apply elem_of_cons in Hav as [->|Hav]; [done|].
    apply elem_of_cons in Hav as [->|Hav]; [done|].
    by apply elem_of_nil in Hav.
  - destruct (String.prefix "zh" l); unfold lang.set_language;
      rewrite bool_decide_eq_true_2; try done;
      unfold lang.AVAILABLE_LANGUAGES; set_solver.
Qed.

(** * The properties on the sample data *)

(** The pagination example of the specification: 23 cached items in
    pages of 10. *)
Example pagination_23_items :
  let answer p := (_handle_cache_api 1000 demo_sid p 10 (cache demo_searched)).1 in
  let items r := match r with CacheApiOk b => Some (cp_icons b) | _ => None end in
  let pages r := match r with CacheApiOk b => Some (cp_totalPages b) | _ => None end in
  length <$> items (answer 1) = Some 10%nat
  ∧ items (answer 3) = Some [21; 22; 23]%nat
  ∧ pages (answer 3) = Some 3
  ∧ items (answer 4) = Some [].
Proof. vm_compute. repeat split. Qed.

(** C7 on the sample store: a value set at clock 0 is read back one
    second later; the search record of clock 0 is gone one millisecond
    after its 30 minutes, and [total] is down to 0. *)
Lemma C7_witness :
  get_icon 1000 "k" (set_icon 0 "k" 7%nat (new_cache (Icon := nat) 1800000))
  = (Some 7%nat, set_icon 0 "k" 7%nat (new_cache 1800000))
  ∧ (get_search 1800001 demo_sid (cache demo_searched)).1 = None
  ∧ total (search_cache_stats
             (get_stats 1800001
                (get_search 1800001 demo_sid (cache demo_searched)).2)) = 0.
Proof.
  split.
  - apply (proj1 (C7_set_get_expire (new_cache 1800000) "k" 0 1000)).
    simpl. lia.
  - edestruct (proj2 (proj2 (proj2
      (C7_set_get_expire (cache demo_searched) demo_sid 0 1800001))))
      as (Hget & _ & Htotal).
    + reflexivity.
    + vm_compute. reflexivity.
    + split; [by rewrite Hget|]. rewrite Htotal. reflexivity.
Defined.

(** C6 on the sample store (23 items, pages of 10): page 3 holds the
    last three items, there are 3 pages, and an unknown identifier is
    answered with not-found. *)
Lemma C6_witness :
  ∃ body,
    _handle_cache_api 1000 demo_sid 3 10 (cache demo_searched)
    = (CacheApiOk body, cache demo_searched)
    ∧ cp_icons body = [21; 22; 23]%nat
    ∧ cp_totalPages body = 3
  ∧ _handle_cache_api 1000 "search_unknown" 3 10 (cache demo_searched)
    = (CacheApiNotFound, cache demo_searched).
Proof.
  destruct (C6_pagination 1000 demo_sid 3 10 (cache demo_searched))
    as [Hpage _].
  edestruct Hpage as (body & Hcall & Hitems & _ & _ & _ & _ & _ & Htp).
  - reflexivity.
  - vm_compute. discriminate.
  - lia.
  - lia.
  - exists body. split; [exact Hcall|]. split; [exact Hitems|].
    simpl in Htp. split; [lia|].
    apply (proj2 (C6_pagination 1000 "search_unknown" 3 10
                    (cache demo_searched))).
    reflexivity.
Defined.

(** C9 on the sample server: a connection opened after the selection
    was submitted replaces the COMPLETED record by a fresh WAITING one. *)
Lemma C9_witness :
  (status <$> get_selection demo_sid (cache demo_submitted)) = Some COMPLETED
  ∧ ∃ w',
      step demo_t demo_submitted (WsOpen 1 demo_sid) = Some w'
      ∧ get_selection demo_sid (cache w')
        = Some (mkSelectionData WAITING demo_sid 600 true []).
Proof.
  split; [reflexivity|].
  destruct (C9_ws_open_overwrites demo_t demo_submitted 1 demo_sid)
    as (w' & Hstep & _ & Hfull & _); [reflexivity|].
  exists w'. split; [exact Hstep|].
  destruct Hfull as (_ & Hrec & _); [discriminate|]. exact Hrec.
Defined.

(** C5 on the sample server: a poll for an identifier that was never
    minted is refused in its first piece. *)
Lemma C5_witness :
  ∃ w',
    step demo_t demo_searched (PollCall 0 "search_unknown" 180000) = Some w'
    ∧ polls w' !! 0%nat = Some (PollRaised (MsgNoSearchFound "search_unknown"))
    ∧ cache w' = cache demo_searched.
Proof.
  destruct (C5_no_search_fails_fast demo_t demo_searched 0 "search_unknown"
              180000) as (_ & w' & Hstep & Hpc & Hcache & _).
  - reflexivity.
  - reflexivity.
  - exists w'. auto.
Defined.

(** C4 on the sample server: a poll with a 50 ms budget on the WAITING
    record returns the timeout result after its single sleep and the
    store is as before; the icons submitted 400 ms later are returned
    by the next call. *)
Lemma C4_witness :
  ∃ w1,
    step demo_t demo_connected (PollCall 0 demo_sid 50) = Some w1
    ∧ cache w1 = cache demo_connected
    ∧ ∃ w3 res,
        run demo_t w1 [Tick 100; PollWake 0] = Some w3
        ∧ polls w3 !! 0%nat = Some (PollReturned res)
        ∧ is_timeout res
        ∧ cache w3 = cache demo_connected
        ∧ ∃ w5,
            run demo_t w3
              [Tick 400; HttpSave (SaveBody [3; 5]%nat demo_sid); Tick 50;
               PollCall 1 demo_sid 1000]
            = Some w5
            ∧ polls w5 !! 1%nat
              = Some (PollReturned
                        (mkPollResult true "completed" (Some [3; 5]%nat)
                           (Some 2) None)).
Proof.
  edestruct (C4_short_wait_times_out demo_t demo_connected 0 demo_sid 50)
    as (w1 & Hstep & Hcache & _ & Hsleep & Hwake).
  - reflexivity.
  - reflexivity.
  - vm_compute. discriminate.
  - unfold check_interval. lia.
  - intros sel Hsel. vm_compute in Hsel. by inversion Hsel.
  - exists w1. split; [exact Hstep|]. split; [exact Hcache|].
    assert (Some w1 = Some demo_short_poll) as [= ->]
      by (rewrite <- Hstep; vm_compute; reflexivity).
    destruct (Hwake (default demo_short_poll
                       (step demo_t demo_short_poll (Tick 100))))
      as (_ & w3 & res & Hs3 & Hpc & Hres & Hc3 & Hlater);
      [reflexivity | vm_compute; discriminate |].
    exists w3, res. split; [|split; [exact Hpc | split; [exact Hres|]]].
    + simpl. exact Hs3.
    + split; [rewrite Hc3; reflexivity|].
      assert (Some w3 = Some demo_timed_out) as [= ->]
        by (rewrite <- Hs3; vm_compute; reflexivity).
      edestruct (Hlater 1%nat 1000 400 50 [3; 5]%nat)
        as (w5 & Hrun & Hp5 & _).
      * reflexivity.
      * reflexivity.
      * lia.
      * lia.
      * vm_compute. discriminate.
      * lia.
      * discriminate.
      * discriminate.
      * exists w5. split; [exact Hrun | exact Hp5].
Defined.

(** C1 on the sample server: connection 0 is closed; the re-check
    cannot run at once, and when a submission arrives during the grace
    period the re-check leaves its COMPLETED record in place. *)
Lemma C1_witness :
  ∃ w1,
    step demo_t demo_connected (WsClose 0) = Some w1
    ∧ cache w1 = cache demo_connected
    ∧ step demo_t w1 (WsGraceOver 0) = None
    ∧ ∀ w2 w3,
        run demo_t w1 [HttpSave (SaveBody [3; 5]%nat demo_sid); Tick 2000]
        = Some w2 →
        step demo_t w2 (WsGraceOver 0) = Some w3 →
        (status <$> get_selection demo_sid (cache w3)) = Some COMPLETED.
Proof.
  edestruct (C1_grace_recheck demo_t demo_connected 0 demo_sid)
    as (w1 & Hstep & Hcache & _ & Hlater).
  - reflexivity.
  - discriminate.
  - reflexivity.
  - reflexivity.
  - exists w1. split; [exact Hstep|]. split; [exact Hcache|]. split.
    + apply (Hlater [] w1 eq_refl).
      assert (Some (clock w1) = Some 500) as [= ->]
          by (change (Some (clock w1)) with (clock <$> Some w1);
              rewrite <- Hstep; vm_compute; reflexivity).
      vm_compute. reflexivity.
    + intros w2 w3 Hrun Hover.
      destruct (Hlater _ w2 Hrun) as (_ & _ & Hcheck).
      destruct (Hcheck w3 Hover) as (_ & _ & _ & Hkeep).
      assert (Hsel : get_selection demo_sid (cache w2)
                     = Some (mkSelectionData COMPLETED demo_sid 500 true
                               [3; 5]%nat)).
      { assert (w1 = default demo_connected
                       (step demo_t demo_connected (WsClose 0))) as ->
          by (rewrite Hstep; reflexivity).
        vm_compute in Hrun. inversion Hrun. reflexivity. }
      rewrite (Hkeep _ Hsel eq_refl). reflexivity.
Defined.

(** C2 on the sample server: closed, reopened one second later, and
    FAILED one second after that. *)
Lemma C2_witness :
  ∃ w3 w5,
    run demo_t demo_connected
      [WsClose 0; Tick 1000; WsOpen 1 demo_sid; WsWelcomed 1] = Some w3
    ∧ (status <$> get_selection demo_sid (cache w3)) = Some WAITING
    ∧ run demo_t w3 [Tick 1000; WsGraceOver 0] = Some w5
    ∧ (status <$> get_selection demo_sid (cache w5)) = Some FAILED.
Proof.
  edestruct (C2_reconnect_then_failed demo_t demo_connected 0 1 demo_sid
               (mkSelectionData WAITING demo_sid 500 true []) 1000 1000)
    as (w3 & w5 & Hr3 & Hs3 & Hr5 & Hs5 & _).
  - reflexivity.
  - reflexivity.
  - discriminate.
  - reflexivity.
  - reflexivity.
  - unfold grace_period. lia.
  - lia.
  - unfold grace_period. lia.
  - exists w3, w5. rewrite Hs3, Hs5. auto.
Defined.

(** C3 on the sample server: the poll returns the two submitted items
    and deletes the record; the next call for the same identifier goes
    to sleep instead of being refused. *)
Lemma C3_witness :
  ∃ w1,
    step demo_t demo_submitted (PollWake 0) = Some w1
    ∧ polls w1 !! 0%nat
      = Some (PollReturned
                (mkPollResult true "completed" (Some [3; 5]%nat) (Some 2) None))
    ∧ get_selection demo_sid (cache w1) = None
    ∧ ∃ w2,
        step demo_t w1 (PollCall 1 demo_sid 1000) = Some w2
        ∧ polls w2 !! 1%nat = Some (PollSleeping demo_sid 1000 600 600 700).
Proof.
  edestruct (C3_terminal_consumed demo_t demo_submitted 0 1 demo_sid 5000 500
               500 600 1000 (mkSelectionData COMPLETED demo_sid 500 true
                               [3; 5]%nat))
    as (w1 & res & Hstep & Hpc & Hdone & _ & _ & Hgone & Hnext).
  - reflexivity.
  - vm_compute. discriminate.
  - vm_compute. reflexivity.
  - reflexivity.
  - left. reflexivity.
  - exists w1. split; [exact Hstep|].
    split; [rewrite Hpc, (Hdone eq_refl); reflexivity|].
    split; [exact Hgone|].
    assert (w1 = default demo_submitted
                   (step demo_t demo_submitted (PollWake 0))) as Hw1
        by (rewrite Hstep; reflexivity).
    edestruct Hnext as (w2 & pc & Hcall & Hpc2 & _ & _ & Hsleeps & _).
    + rewrite Hw1. reflexivity.
    + rewrite Hw1. reflexivity.
    + rewrite Hw1. vm_compute. discriminate.
    + exists w2. split; [exact Hcall|]. rewrite Hpc2.
      rewrite (Hsleeps ltac:(lia)). rewrite Hw1. reflexivity.
Defined.

(** C10 on the sample server: the search repeated one second later
    returns the object at address 0, whose identifier is the one minted
    by the first call. *)
Lemma C10_witness :
  search_icons 1000 demo_args (cache demo_searched)
  = (SearchReturned 0%nat, cache demo_searched)
  ∧ (search_id <$> heap demo_searched !! 0%nat) = Some demo_sid.
Proof.
  split; [|reflexivity].
  eapply (C10_repeat_search_cached demo_t 0 0 1000 demo_args
            (new_cache 1800000) (new_cache 1800000)
            (new_cache 1800000) _ (cache demo_searched)
            (UpJson 200 demo_icons 23) "abcdefgh" ∅ _ 0%nat).
  - reflexivity.
  - reflexivity.
  - reflexivity.
  - vm_compute. discriminate.
Defined.

(** C2, counterexample. A page is opened (connection 0), the connection
    is closed, and one second later a new connection for the same
    identifier is opened (connection 1).  When the first handler's grace
    period is over the record is WAITING again, so its re-check writes
    FAILED: the record does not remain WAITING, although connection 1 is
    still open. *)
Lemma C2_counterexample :
  ∃ w,
    run demo_t demo_searched
      [WsOpen 0 demo_sid; WsWelcomed 0; Tick 500; WsClose 0; Tick 1000;
       WsOpen 1 demo_sid; WsWelcomed 1; Tick 1000; WsGraceOver 0] = Some w
    ∧ ws_handlers w !! 1%nat = Some (mkWsHandler demo_sid WsListening)
    ∧ get_selection demo_sid (cache w)
      = Some (mkSelectionData FAILED demo_sid 2500 false []).
Proof. eexists. split; [vm_compute; reflexivity|]. split; reflexivity. Qed.

(** C3, counterexample. A poll returns the submitted selection and
    deletes the record; a second call for the same identifier is not
    refused with not-found: the search record is still cached, so the
    call goes to sleep and, nothing being written, ends in the timeout
    result. *)
Lemma C3_counterexample :
  ∃ w,
    run demo_t demo_submitted
      [PollWake 0; PollCall 1 demo_sid 1000; Tick 1000; PollWake 1] = Some w
    ∧ polls w !! 0%nat
      = Some (PollReturned
                (mkPollResult true "completed" (Some [3; 5]%nat) (Some 2) None))
    ∧ get_selection demo_sid (cache w) = None
    ∧ polls w !! 1%nat
      = Some (PollReturned
                (mkPollResult false "timeout" None None
                   (Some (MsgSelectionTimeout 1))))
    ∧ polls w !! 1%nat ≠ Some (PollRaised (MsgNoSearchFound demo_sid)).
Proof.
  eexists. split; [vm_compute; reflexivity|].
  split; [reflexivity|]. split; [reflexivity|]. split; [reflexivity|].
  discriminate.
Qed.

(** ** The further properties on the sample data *)

Lemma fresh_poll_sees_submission_witness :
  ∃ w',
    run demo_t demo_connected
      [HttpSave (SaveBody [3; 5]%nat demo_sid); PollCall 1 demo_sid 1000]
    = Some w'
    ∧ polls w' !! 1%nat
      = Some (PollReturned
                (mkPollResult true "completed" (Some [3; 5]%nat) (Some 2) None)).
Proof.
  edestruct (fresh_poll_sees_submission demo_t demo_connected 1 demo_sid 1000
               [3; 5]%nat) as (w' & Hrun & Hpc & _).
  - reflexivity.
  - reflexivity.
  - vm_compute. discriminate.
  - lia.
  - discriminate.
  - discriminate.
  - exists w'. split; [exact Hrun | exact Hpc].
Defined.

Lemma get_agrees_with_clear_witness :
  (get_search 1800000 demo_sid (cache demo_searched)).1 ≠ None
  ∧ is_Some (_search_cache (clear 1800000 true (cache demo_searched)).2
               !! demo_sid).
Proof.
  destruct (get_agrees_with_clear demo_t 1800000 demo_sid
              (cache demo_searched))
    as (_ & _ & _ & Hs).
  edestruct Hs as [Hget Hkeep]; [reflexivity | vm_compute; reflexivity |].
  split; [by rewrite Hget | by rewrite Hkeep].
Defined.

Lemma selection_namespace_plain_witness :
  let d := mkSelectionData (Icon := nat) WAITING "a" 0 true [] in
  get_selection "b" (set_selection "a" d (new_cache 1000)) = None
  ∧ delete_selection "a" (new_cache (Icon := nat) 1000) = new_cache 1000.
Proof.
  intros d.
  destruct (selection_namespace_plain "a" "b" d (new_cache 1000))
    as (_ & Hother & _ & Habsent & _).
  split.
  - destruct Hother as [Hset _]; [discriminate|]. by rewrite Hset.
  - apply Habsent. reflexivity.
Defined.

Lemma pages_cover_the_list_witness :
  mjoin (page_items 1000 demo_sid 10 (cache demo_searched) <$> [1; 2; 3])
  = demo_icons.
Proof.
  edestruct (pages_cover_the_list 1000 demo_sid 10 (cache demo_searched))
    as (body & Hcall & Hjoin & _).
  - reflexivity.
  - vm_compute. discriminate.
  - lia.
  - assert (cp_totalPages body = 3) as Htp.
    { change (cp_totalPages body) with
        (match CacheApiOk body with
         | CacheApiOk b => cp_totalPages b | _ => 0 end).
      change (CacheApiOk body) with (CacheApiOk body, cache demo_searched).1.
      rewrite <- Hcall. reflexivity. }
    rewrite Htp in Hjoin. exact Hjoin.
Defined.

Lemma cache_api_zero_page_size_witness :
  _handle_cache_api 1000 demo_sid 1 0 (cache demo_searched)
  = (CacheApiZeroDivision, cache demo_searched)
  ∧ _handle_cache_api 1000 "search_unknown" 1 0 (cache demo_searched)
    = (CacheApiNotFound, cache demo_searched).
Proof.
  destruct (cache_api_zero_page_size 1000 demo_sid 1 (cache demo_searched))
    as [Hknown _].
  destruct (cache_api_zero_page_size 1000 "search_unknown" 1
              (cache demo_searched)) as [_ Hunknown].
  split.
  - eapply Hknown; [reflexivity | vm_compute; discriminate].
  - apply Hunknown. reflexivity.
Defined.

Lemma expired_search_record_is_dropped_witness :
  (_handle_cache_api 1800001 demo_sid 1 10 (cache demo_searched)).1
  = CacheApiNotFound
  ∧ _search_cache
      (_handle_cache_api 1800001 demo_sid 1 10 (cache demo_searched)).2 = ∅.
Proof.
  edestruct (expired_search_record_is_dropped 1800001 demo_sid 1 10 1000
               (cache demo_searched)) as (Hapi & _ & _).
  - reflexivity.
  - vm_compute. reflexivity.
  - rewrite Hapi. split; reflexivity.
Defined.

Lemma save_api_overwrites_witness :
  get_selection "search_unknown"
    (_handle_save_api 700 (SaveBody [3; 5]%nat "search_unknown")
       (cache demo_searched)).2
  = Some (mkSelectionData COMPLETED "search_unknown" 700 true [3; 5]%nat)
  ∧ _handle_save_api 700 (SaveBody [] demo_sid) (cache demo_searched)
    = (SaveMissing, cache demo_searched).
Proof.
  destruct (save_api_overwrites 700 [3; 5]%nat "search_unknown"
              (cache demo_searched)) as [_ Hok].
  destruct (save_api_overwrites 700 [] demo_sid (cache demo_searched))
    as [Hbad _].
  split.
  - destruct Hok as (_ & Hrec & _); [discriminate | discriminate |].
    exact Hrec.
  - apply Hbad. by left.
Defined.

Lemma ws_close_without_grace_witness :
  ∃ w1,
    step demo_t demo_submitted (WsClose 0) = Some w1
    ∧ cache w1 = cache demo_submitted
    ∧ step demo_t w1 (WsGraceOver 0) = None.
Proof.
  destruct (ws_close_without_grace demo_t demo_submitted 0 demo_sid)
    as (w1 & Hstep & Hcache & _ & Hlater).
  - reflexivity.
  - left. reflexivity.
  - exists w1. split; [exact Hstep|]. split; [exact Hcache|].
    apply (Hlater [] w1 eq_refl).
Defined.

Lemma abandoned_selection_fails_witness :
  ∃ w',
    run demo_t demo_polling [WsClose 0; Tick 2000; WsGraceOver 0; PollWake 0]
    = Some w'
    ∧ polls w' !! 0%nat
      = Some (PollReturned
                (mkPollResult false "failed" None None
                   (Some MsgSelectionFailed)))
    ∧ get_selection demo_sid (cache w') = None.
Proof.
  apply (abandoned_selection_fails demo_t demo_polling 0 0 demo_sid
           (mkSelectionData WAITING demo_sid 500 true []) 5000 500 500 600
           2000).
  - reflexivity.
  - discriminate.
  - reflexivity.
  - reflexivity.
  - reflexivity.
  - unfold grace_period. lia.
  - vm_compute. discriminate.
  - vm_compute. reflexivity.
Defined.

Lemma poll_deadline_first_witness :
  (status <$> get_selection demo_sid (cache demo_late)) = Some COMPLETED
  ∧ ∃ w' res,
      step demo_t demo_late (PollWake 0) = Some w'
      ∧ polls w' !! 0%nat = Some (PollReturned res) ∧ is_timeout res
      ∧ cache w' = cache demo_late.
Proof.
  split; [reflexivity|].
  destruct (poll_deadline_first demo_t demo_late 0 demo_sid 5000)
    as [Hwake _].
  apply (Hwake 500 500 600).
  - reflexivity.
  - vm_compute. discriminate.
  - vm_compute. discriminate.
Defined.

Lemma selection_records_well_formed_witness :
  run demo_t (init_world 1800000) demo_history = Some demo_submitted
  ∧ selections_wf demo_submitted.
Proof.
  assert (Hrun : run demo_t (init_world 1800000) demo_history
                 = Some demo_submitted) by (vm_compute; reflexivity).
  split; [exact Hrun|].
  exact (selection_records_well_formed demo_t 1800000 demo_history
           demo_submitted Hrun).
Defined.

Lemma selection_writers_witness :
  ∃ conn, (WsOpen 1 demo_sid : @Event nat) = WsOpen conn demo_sid.
Proof.
  apply (selection_writers demo_t demo_submitted
           (default demo_submitted
              (step demo_t demo_submitted (WsOpen 1 demo_sid)))
           (WsOpen 1 demo_sid) demo_sid
           (mkSelectionData WAITING demo_sid 600 true [])).
  - reflexivity.
  - reflexivity.
  - vm_compute. discriminate.
Defined.

Lemma selection_removed_only_by_poll_witness :
  terminal (mkSelectionData COMPLETED demo_sid 500 true [3; 5]%nat)
  ∧ ∃ p, (PollWake 0 : @Event nat) = PollWake p
         ∨ ∃ max_wait_ms,
             (PollWake 0 : @Event nat) = PollCall p demo_sid max_wait_ms.
Proof.
  apply (selection_removed_only_by_poll demo_t demo_submitted
           (default demo_submitted (step demo_t demo_submitted (PollWake 0)))
           (PollWake 0) demo_sid).
  - reflexivity.
  - reflexivity.
  - reflexivity.
Defined.

Lemma timestamped_namespaces_only_shrink_witness :
  _search_cache (_handle_cache_api 1800001 demo_sid 1 10
                   (cache demo_searched)).2
  ⊆ _search_cache (cache demo_searched).
Proof.
  destruct (timestamped_namespaces_only_shrink demo_t
              (default demo_searched (step demo_t demo_searched (Tick 1800001)))
              (default demo_searched
                 (run demo_t demo_searched
                    [Tick 1800001; HttpCache demo_sid 1 10]))
              (HttpCache demo_sid 1 10)) as [_ Hshrink].
  - reflexivity.
  - destruct Hshrink as [_ Hs]; [discriminate|]. exact Hs.
Defined.

Lemma cached_result_is_pollable_witness :
  ∃ obj rec,
    heap demo_submitted !! 0%nat = Some obj
    ∧ get_search 600 (search_id obj) (cache demo_submitted)
      = (Some rec, cache demo_submitted).
Proof.
  edestruct (cached_result_is_pollable demo_t 1800000 demo_history
               demo_submitted demo_args 0%nat) as [_ Hknown].
  - vm_compute. reflexivity.
  - reflexivity.
  - exact Hknown.
Defined.

Lemma search_validation_witness :
  search_icons 0 (mkSearchArgs "home" "recommend" 0 101 "" (-1) "")
    (new_cache (Icon := nat) 1800000)
  = (SearchRaised InvalidPage, new_cache 1800000)
  ∧ search_icons 0 (mkSearchArgs "home" "recommend" 1 101 "" (-1) "")
      (new_cache (Icon := nat) 1800000)
    = (SearchRaised InvalidPageSize, new_cache 1800000)
  ∧ (search_icons 0 (mkSearchArgs "home" "recommend" 1 100 "" (-1) "")
       (new_cache (Icon := nat) 1800000)).1
    ≠ SearchRaised InvalidPageSize.
Proof.
  split; [|split].
  - apply (proj1 (search_validation 0 _ _)). simpl. lia.
  - apply (proj1 (proj2 (search_validation 0 _ _))); simpl; lia.
  - apply (proj2 (proj2 (search_validation 0 _ _))); simpl; lia.
Defined.

Lemma upstream_failure_caches_nothing_witness :
  search_icons_resume demo_t 0 demo_args (UpJson 500 demo_icons 23)
    "abcdefgh" ∅ (new_cache 1800000)
  = (SearchRaised SearchFailed, ∅, new_cache 1800000).
Proof.
  destruct (upstream_failure_caches_nothing demo_t 0 demo_args
              (UpJson 500 demo_icons 23) "abcdefgh" ∅ (new_cache 1800000))
    as (err & Hcall & _ & Hfailed).
  - intros items total. discriminate.
  - rewrite Hcall. f_equal. f_equal. f_equal. apply Hfailed. discriminate.
Defined.

Lemma cache_key_collision_witness :
  let a1 := mkSearchArgs "a_b" "c" 1 100 "" (-1) "" in
  let a2 := mkSearchArgs "a" "b_c" 1 100 "" (-1) "" in
  let c := set_icon 0 (cache_key a1) 7%nat (new_cache (Icon := nat) 1800000) in
  search_icons 1000 a2 c = (SearchReturned 7%nat, c).
Proof.
  intros a1 a2 c.
  destruct (cache_key_collision (Icon := nat) "a" "b" "c" "" "" 1 100 (-1))
    as [_ Hhit].
  apply (Hhit 1000 c (mkCacheEntry 7%nat 0 (cache_key a1))).
  - lia.
  - lia.
  - vm_compute. reflexivity.
  - vm_compute. discriminate.
Defined.

Lemma search_id_injective_witness :
  (5 : Z) = 5 ∧ "abcdefgh" = "abcdefgh".
Proof.
  apply (search_id_injective 5 5 "abcdefgh" "abcdefgh"); reflexivity.
Defined.

Lemma cached_hit_carries_web_url_witness :
  ∃ w',
    run demo_t demo_answered [SearchDeliver 0 3000; Tick 1000;
                              SearchCall 1 demo_args] = Some w'
    ∧ searches w' !! 1%nat = Some (SearchRunning (SearchReturned 0%nat))
    ∧ (web_url <$> heap w' !! 0%nat)
      = Some (Some "http://localhost:3000?searchId=search_0_abcdefgh").
Proof.
  edestruct (cached_hit_carries_web_url demo_t demo_answered 0 1 demo_args
               0%nat) as (w' & Hrun & Hs & Hobj & Hurl & _).
  - reflexivity.
  - reflexivity.
  - reflexivity.
  - reflexivity.
  - reflexivity.
  - simpl. lia.
  - simpl. lia.
  - assert (0 <= 1000) as H by lia. exact H.
  - vm_compute. discriminate.
  - exists w'. split; [exact Hrun|]. split; [exact Hs|].
    apply (f_equal (fmap (M := option) web_url)) in Hobj. exact Hobj.
Defined.

Lemma find_port_first_free_witness :
  _find_available_port (λ p, bool_decide (p = 3002)) 25000 3000 = 3002
  ∧ _find_available_port (λ _, false) 25000 3000 = 25000.
Proof.
  split.
  - destruct (find_port_first_free (λ p, bool_decide (p = 3002)) 25000 3000)
      as [Hfound _].
    destruct Hfound as (_ & Hfree & _).
    + exists 3002. split; [lia | reflexivity].
    + by apply bool_decide_eq_true in Hfree.
  - apply (proj2 (find_port_first_free (λ _, false) 25000 3000)). done.
Defined.

Lemma start_idempotent_witness :
  let srv := (start (λ p, bool_decide (p = 3002)) 25000 true None (Some true)
                (mkWebServer 3000 false false)).2 in
  port srv = 3002
  ∧ start (λ _, true) 25000 true (Some 8080) None srv
    = (AlreadyRunning 3002 "http://localhost:3002", srv).
Proof.
  intros srv.
  destruct (start_idempotent (λ p, bool_decide (p = 3002)) 25000 true None
              (Some true) (mkWebServer 3000 false false)) as [_ Hstopped].
  destruct Hstopped as (Hport & _ & _ & _ & Hagain); [reflexivity|].
  split.
  - unfold srv. rewrite Hport. reflexivity.
  - unfold srv. rewrite Hagain. reflexivity.
Defined.

Lemma save_icons_partition_witness :
  (save_icons demo_io true demo_dicts "/tmp/icons" demo_fs).1
  = SaveDone ["home.svg"] ["user"; "lock"; "star"] "/tmp/icons".
Proof.
  destruct (save_icons_partition demo_io demo_dicts "/tmp/icons" demo_fs)
    as (_ & Hparts & _).
  destruct Hparts as (fs' & Hcall & _); [discriminate|].
  rewrite Hcall. reflexivity.
Defined.

